(** * Verification of the mocktail mock generator (syrup.go, mocktail.go)

    Shallow embedding of the type-expression resolver, the import
    collector, the import-list renderer, the mock-stub data shaping,
    the model builders and the generation loop of mocktail. *)

From stdpp Require Import base list gmap strings sorting pretty.
From Stdlib Require Import Ascii ZArith Lia.

Local Open Scope string_scope.
#[local] Set Warnings "-register-all".

(** ** Go strings and the few [strings] / [fmt] helpers the code uses *)

Module GoStr.

(** [strings.Contains(s, ".")] for a one-byte needle. *)
Fixpoint containsByte (c : ascii) (s : string) : bool :=
  match s with
  | EmptyString => false
  | String c' s' => Ascii.eqb c c' || containsByte c s'
  end.

(** [strings.LastIndex(s, sep)] for a one-byte separator; [-1] when absent. *)
Fixpoint lastIndexByte_go (c : ascii) (s : string) (i : Z) (acc : Z) : Z :=
  match s with
  | EmptyString => acc
  | String c' s' =>
      lastIndexByte_go c s' (i + 1) (if Ascii.eqb c c' then i else acc)
  end.

Definition lastIndexByte (c : ascii) (s : string) : Z := lastIndexByte_go c s 0 (-1).

(** [s[i:]] *)
Definition sliceFrom (s : string) (i : nat) : string :=
  String.substring i (String.length s - i) s.

(** [strings.Join(elems, sep)] *)
Fixpoint join (elems : list string) (sep : string) : string :=
  match elems with
  | [] => ""
  | [e] => e
  | e :: rest => e +:+ sep +:+ join rest sep
  end.

Definition byte (n : N) : ascii := Ascii.ascii_of_N n.

(** [string(rune(c))]: the UTF-8 encoding of the code point [c]; invalid
    code points (negative, surrogate halves, above U+10FFFF) encode as
    U+FFFD, as the Go conversion does. *)
Definition string_of_rune (c : Z) : string :=
  let replacement := String (byte 239) (String (byte 191) (String (byte 189) EmptyString)) in
  if (c <? 0)%Z then replacement
  else if (c <? 128)%Z then String (byte (Z.to_N c)) EmptyString
  else if (c <? 2048)%Z then
    String (byte (Z.to_N (192 + c / 64)))
      (String (byte (Z.to_N (128 + c mod 64))) EmptyString)
  else if ((55296 <=? c) && (c <=? 57343))%Z then replacement
  else if (c <? 65536)%Z then
    String (byte (Z.to_N (224 + c / 4096)))
      (String (byte (Z.to_N (128 + (c / 64) mod 64)))
        (String (byte (Z.to_N (128 + c mod 64))) EmptyString))
  else if (c <=? 1114111)%Z then
    String (byte (Z.to_N (240 + c / 262144)))
      (String (byte (Z.to_N (128 + (c / 4096) mod 64)))
        (String (byte (Z.to_N (128 + (c / 64) mod 64)))
          (String (byte (Z.to_N (128 + c mod 64))) EmptyString)))
  else replacement.

(** [fmt.Sprintf("%d", n)] for a non-negative [n]. *)
Definition itoa (n : nat) : string := pretty (N.of_nat n).

End GoStr.

(** ** Type descriptors ([go/types]) *)

Module GoTypes.

(** [*types.Package]: its import path and its declared (short) name. *)
Record Package := mkPackage { pkg_Path : string; pkg_Name : string }.

Inductive ChanDir := SendRecv | SendOnly | RecvOnly.

(** The variants of [types.Type] that the resolver and the import
    collector switch on.  A variable ([*types.Var]) is a pair of its
    name ([""] when the source omits it) and its type.  A named type is
    its object's name and the object's package ([nil] for universe
    types such as [error]); [Named.Obj()] is never [nil] in [go/types]. *)
Inductive typ :=
| TBasic (name : string)
| TSlice (elem : typ)
| TArray (len : N) (elem : typ)
| TStruct (fields : list (string * typ))
| TMap (key elem : typ)
| TNamed (name : string) (pkg : option Package)
| TPointer (elem : typ)
| TInterface (methods : list (string * typ))
| TSignature (params results : list (string * typ)) (variadic : bool)
| TChan (dir : ChanDir) (elem : typ)
| TTypeParam (name : string).

Definition var := (string * typ)%type.
Definition var_Name (v : var) : string := fst v.
Definition var_Type (v : var) : typ := snd v.

(** [*types.Signature] of a method. *)
Record Signature := mkSignature {
  sig_Params : list var;
  sig_Results : list var;
  sig_Variadic : bool
}.

(** [*types.Func]: an interface method. *)
Record Func := mkFunc { func_Name : string; func_Sig : Signature }.

End GoTypes.

Import GoStr GoTypes.

(** ** The type-expression resolver ([Syrup.getTypeName], syrup.go)

    [TypeString] is [types.Type.String()] of [go/types], used by the code
    for struct and interface literals, for the context test and for the
    named-type fallback; every result below holds for any such printer. *)

Section Resolver.

Variable TypeString : typ -> string.

(** [Syrup]: the fields read while rendering one method. *)
Record Syrup := mkSyrup {
  PkgPath : string;
  InterfaceName : string;
  MethodName : string;
  Sig : Signature;
  TypeParams : list (string * string)
}.

Definition getNamedTypeName (s : Syrup) (t : typ) : string :=
  match t with
  | TNamed name (Some p) =>
      if String.eqb (pkg_Path p) (PkgPath s) then name
      else pkg_Name p +:+ "." +:+ name
  | _ =>
      let name := TypeString t in
      let i := lastIndexByte "/" (TypeString t) in
      if (i >? -1)%Z then sliceFrom name (Z.to_nat (i + 1)) else name
  end.

Definition getChanPrefix (d : ChanDir) : string :=
  match d with
  | SendRecv => "chan"
  | SendOnly => "chan<-"
  | RecvOnly => "<-chan"
  end.

Fixpoint getTypeName (s : Syrup) (t : typ) (last : bool) : string :=
  match t with
  | TBasic name => name
  | TSlice elem =>
      if sig_Variadic (Sig s) && last then "..." +:+ getTypeName s elem false
      else "[]" +:+ getTypeName s elem false
  | TMap key elem =>
      "map[" +:+ getTypeName s key false +:+ "]" +:+ getTypeName s elem false
  | TNamed _ _ => getNamedTypeName s t
  | TPointer elem => "*" +:+ getTypeName s elem false
  | TStruct _ => TypeString t
  | TInterface _ => TypeString t
  | TSignature ps rs _ =>
      let fn := "func(" +:+ join (map (fun v => getTypeName s (snd v) false) ps) "," +:+ ")" in
      match rs with
      | [] => fn
      | _ => fn +:+ " (" +:+ join (map (fun v => getTypeName s (snd v) false) rs) "," +:+ ")"
      end
  | TChan d elem => getChanPrefix d +:+ " " +:+ getTypeName s elem false
  | TArray n elem => "[" +:+ pretty n +:+ "]" +:+ getTypeName s elem false
  | TTypeParam name => name
  end.

(** [getTupleTypes] *)
Definition getTupleTypes (s : Syrup) (t : list var) : list string :=
  map (fun v => getTypeName s (var_Type v) false) t.

End Resolver.

(** ** Synthesized names ([getParamName], [getResultName], syrup.go) *)

Definition getParamName (tVar : var) (i : nat) : string :=
  if String.eqb (var_Name tVar) "" then string_of_rune (97 + Z.of_nat i) +:+ "Param"
  else var_Name tVar.

Definition getResultName (tVar : var) (i : nat) : string :=
  if String.eqb (var_Name tVar) "" then
    "_r" +:+ string_of_rune (97 + Z.of_nat i) +:+ itoa i
  else var_Name tVar.

(** ** Template data of one method ([Syrup.MockMethod], [Syrup.Call]) *)

Definition contextType : string := "context.Context".

(** [Parameter] of syrup.go. *)
Record GoParameter := mkGoParameter {
  par_Name : string;
  par_Type : string;
  par_IsContext : bool;
  par_Position : nat
}.

(** [Result] of syrup.go. *)
Record GoResult := mkGoResult { res_Name : string; res_Type : string }.

(** [Method] of syrup.go. *)
Record GoMethod := mkGoMethod {
  meth_Name : string;
  meth_Params : list GoParameter;
  meth_IsVariadic : bool
}.

(** The fields of [CombinedMockMethodData] computed by [MockMethod]. *)
Record MockMethodData := mkMockMethodData {
  mm_InterfaceName : string;
  mm_MethodName : string;
  mm_TypeParamsUse : string;
  mm_Params : list GoParameter;
  mm_Results : list GoResult;
  mm_CallArgs : list string;
  mm_OnCallArgs : list string;
  mm_FnSignature : string;
  mm_IsVariadic : bool
}.

(** The fields of [CombinedCallData] computed by [Call] from the
    signatures ([CallType] goes through [strcase.ToGoCamel] and is left
    out). *)
Record CallData := mkCallData {
  cd_TypeParamsDecl : string;
  cd_TypeParamsUse : string;
  cd_ReturnParams : list GoParameter;
  cd_ReturnsFnSignature : string;
  cd_TypedRunFnSignature : string;
  cd_InputParams : list GoParameter;
  cd_IsVariadic : bool;
  cd_Methods : list GoMethod;
  cd_HasReturns : bool
}.

Section Method.

Variable TypeString : typ -> string.

Definition isContext (param : var) : bool :=
  String.eqb (TypeString (var_Type param)) contextType.

(** The type switch [param.Type().(types.Signature)] of [MockMethod]. *)
Definition isSignature (t : typ) : bool :=
  match t with TSignature _ _ _ => true | _ => false end.

Definition getTypeParamsUse (s : Syrup) : string :=
  match TypeParams s with
  | [] => ""
  | tps => "[" +:+ join (map fst tps) ", " +:+ "]"
  end.

(** [types.NewTuple] returns [nil] for an empty variable list, so a
    signature without results has a [nil] results tuple. *)
Definition tupleOf (vs : list var) : option (list var) :=
  match vs with [] => None | _ => Some vs end.

(** [createFuncSignature(params, results)] *)
Fixpoint funcSigParamsLoop (s : Syrup) (n i : nat) (ps : list var) (fnSign : string) : string :=
  match ps with
  | [] => fnSign
  | param :: ps' =>
      let fnSign' :=
        if isContext param then fnSign
        else
          let f := fnSign +:+ getTypeName TypeString s (var_Type param) (Nat.eqb i (n - 1)) in
          if Nat.ltb (i + 1) n then f +:+ ", " else f in
      funcSigParamsLoop s n (S i) ps' fnSign'
  end.

Fixpoint funcSigResultsLoop (s : Syrup) (n i : nat) (rs : list var) (fnSign : string) : string :=
  match rs with
  | [] => fnSign
  | r :: rs' =>
      let f := fnSign +:+ getTypeName TypeString s (var_Type r) false in
      funcSigResultsLoop s n (S i) rs' (if Nat.ltb (i + 1) n then f +:+ ", " else f)
  end.

Definition createFuncSignature (s : Syrup) (params : list var) (results : option (list var)) : string :=
  let fnSign := funcSigParamsLoop s (length params) 0 params "func(" +:+ ") " in
  match results with
  | Some rs => funcSigResultsLoop s (length rs) 0 rs (fnSign +:+ "(") +:+ ")"
  | None => fnSign
  end.

(** The parameter loop of [MockMethod]: [paramsData], [callArgs] and
    [onCallArgs] are appended to in one pass over the parameters. *)
Definition mockParamStep (s : Syrup) (n i : nat) (param : var)
    (acc : list GoParameter * list string * list string)
    : list GoParameter * list string * list string :=
  let '(paramsData, callArgs, onCallArgs) := acc in
  let ctx := isContext param in
  let '(name, callArgs', onCallArgs') :=
    if ctx then ("_", callArgs, onCallArgs)
    else
      let name := getParamName param i in
      (name, app callArgs [name],
       app onCallArgs [if isSignature (var_Type param) then "mock.Anything" else name]) in
  (app paramsData [mkGoParameter name (getTypeName TypeString s (var_Type param) (Nat.eqb i (n - 1))) ctx 0],
   callArgs', onCallArgs').

Fixpoint mockParamsLoop (s : Syrup) (n i : nat) (ps : list var)
    (acc : list GoParameter * list string * list string)
    : list GoParameter * list string * list string :=
  match ps with
  | [] => acc
  | param :: ps' => mockParamsLoop s n (S i) ps' (mockParamStep s n i param acc)
  end.

Fixpoint mockResultsLoop (s : Syrup) (i : nat) (rs : list var) (acc : list GoResult) : list GoResult :=
  match rs with
  | [] => acc
  | r :: rs' =>
      mockResultsLoop s (S i) rs'
        (app acc [mkGoResult (getResultName r i) (getTypeName TypeString s (var_Type r) false)])
  end.

Definition MockMethod (s : Syrup) : MockMethodData :=
  let params := sig_Params (Sig s) in
  let results := sig_Results (Sig s) in
  let '(paramsData, callArgs, onCallArgs) :=
    mockParamsLoop s (length params) 0 params ([], [], []) in
  {| mm_InterfaceName := InterfaceName s;
     mm_MethodName := MethodName s;
     mm_TypeParamsUse := getTypeParamsUse s;
     mm_Params := paramsData;
     mm_Results := mockResultsLoop s 0 results [];
     mm_CallArgs := callArgs;
     mm_OnCallArgs := onCallArgs;
     mm_FnSignature := createFuncSignature s params (tupleOf results);
     mm_IsVariadic := sig_Variadic (Sig s) |}.

(** The loops of [Call]. *)
Fixpoint callReturnParams (s : Syrup) (i : nat) (rs : list var) (acc : list GoParameter) : list GoParameter :=
  match rs with
  | [] => acc
  | r :: rs' =>
      callReturnParams s (S i) rs'
        (app acc [mkGoParameter (string_of_rune (97 + Z.of_nat i))
                   (getTypeName TypeString s (var_Type r) false) false 0])
  end.

Fixpoint callInputParams (s : Syrup) (i pos : nat) (ps : list var) (acc : list GoParameter) : list GoParameter :=
  match ps with
  | [] => acc
  | param :: ps' =>
      if isContext param then callInputParams s (S i) pos ps' acc
      else
        callInputParams s (S i) (S pos) ps'
          (app acc [mkGoParameter ("_" +:+ getParamName param i)
                     (getTypeName TypeString s (var_Type param) false) false pos])
  end.

(** Parameters of a sibling method [method]: rendered through [s], i.e.
    with the variadic flag of the signature [s] is generating for. *)
Fixpoint callMethodParams (s : Syrup) (n i : nat) (ps : list var) (acc : list GoParameter) : list GoParameter :=
  match ps with
  | [] => acc
  | param :: ps' =>
      callMethodParams s n (S i) ps'
        (app acc [mkGoParameter (getParamName param i)
                   (getTypeName TypeString s (var_Type param) (Nat.eqb i (n - 1)))
                   (isContext param) 0])
  end.

Definition callMethodData (s : Syrup) (method : Func) : GoMethod :=
  let mParams := sig_Params (func_Sig method) in
  {| meth_Name := func_Name method;
     meth_Params := callMethodParams s (length mParams) 0 mParams [];
     meth_IsVariadic := sig_Variadic (func_Sig method) |}.

Definition getTypeParamsDecl (s : Syrup) : string :=
  match TypeParams s with
  | [] => ""
  | tps => "[" +:+ join (map (fun tp => fst tp +:+ " " +:+ snd tp) tps) ", " +:+ "]"
  end.

Definition Call (s : Syrup) (methods : list Func) : CallData :=
  let params := sig_Params (Sig s) in
  let results := sig_Results (Sig s) in
  {| cd_TypeParamsDecl := getTypeParamsDecl s;
     cd_TypeParamsUse := getTypeParamsUse s;
     cd_ReturnParams := callReturnParams s 0 results [];
     cd_ReturnsFnSignature := createFuncSignature s params (tupleOf results);
     cd_TypedRunFnSignature := createFuncSignature s params None;
     cd_InputParams := callInputParams s 0 0 params [];
     cd_IsVariadic := sig_Variadic (Sig s);
     cd_Methods := map (callMethodData s) methods;
     cd_HasReturns := Nat.ltb 0 (length results) |}.

End Method.

(** A type printer in the style of [types.TypeString] (package-path
    qualified named types), used to evaluate the model on concrete
    signatures. *)
Fixpoint goTypeString (t : typ) : string :=
  match t with
  | TBasic name => name
  | TSlice elem => "[]" +:+ goTypeString elem
  | TArray n elem => "[" +:+ pretty n +:+ "]" +:+ goTypeString elem
  | TStruct fs =>
      "struct{" +:+ join (map (fun f => fst f +:+ " " +:+ goTypeString (snd f)) fs) "; " +:+ "}"
  | TMap k e => "map[" +:+ goTypeString k +:+ "]" +:+ goTypeString e
  | TNamed name (Some p) => pkg_Path p +:+ "." +:+ name
  | TNamed name None => name
  | TPointer elem => "*" +:+ goTypeString elem
  | TInterface ms =>
      "interface{" +:+ join (map (fun m => fst m +:+ goTypeString (snd m)) ms) "; " +:+ "}"
  | TSignature ps rs _ =>
      "func(" +:+ join (map (fun v => goTypeString (snd v)) ps) ", " +:+ ")" +:+
      match rs with
      | [] => ""
      | _ => " (" +:+ join (map (fun v => goTypeString (snd v)) rs) ", " +:+ ")"
      end
  | TChan d elem => getChanPrefix d +:+ " " +:+ goTypeString elem
  | TTypeParam name => name
  end.

(** ** The import collector ([getTypeImports], [getTupleImports],
    [getMethodImports], mocktail.go) *)

Fixpoint getTypeImports (t : typ) : list string :=
  match t with
  | TBasic _ => [""]
  | TSlice elem => getTypeImports elem
  | TArray _ elem => getTypeImports elem
  | TStruct fields => flat_map (fun f => getTypeImports (snd f)) fields
  | TMap key elem => app (getTypeImports key) (getTypeImports elem)
  | TNamed _ None => [""]
  | TNamed _ (Some p) => [pkg_Path p]
  | TPointer elem => getTypeImports elem
  | TInterface _ => [""]
  | TSignature ps rs _ =>
      app (flat_map (fun v => getTypeImports (snd v)) ps)
          (flat_map (fun v => getTypeImports (snd v)) rs)
  | TChan _ _ => [""]
  | TTypeParam _ => [""]
  end.

Definition getTupleImports (tuples : list (list var)) : list string :=
  flat_map (fun tuple => flat_map (fun v => getTypeImports (var_Type v)) tuple) tuples.

Definition getMethodImports (method : Func) (importPath : string) : list string :=
  let signature := func_Sig method in
  List.filter (fun imp => negb (String.eqb imp "") && negb (String.eqb imp importPath))
    (getTupleImports [sig_Params signature; sig_Results signature]).

(** The package paths of the named types found by descending through
    slices, arrays, maps, pointers, struct fields and function
    parameters and results. *)
Inductive reachesPkg : typ -> string -> Prop :=
| reach_named name p : reachesPkg (TNamed name (Some p)) (pkg_Path p)
| reach_slice e path : reachesPkg e path -> reachesPkg (TSlice e) path
| reach_array n e path : reachesPkg e path -> reachesPkg (TArray n e) path
| reach_pointer e path : reachesPkg e path -> reachesPkg (TPointer e) path
| reach_map_key k e path : reachesPkg k path -> reachesPkg (TMap k e) path
| reach_map_elem k e path : reachesPkg e path -> reachesPkg (TMap k e) path
| reach_field fs f path : In f fs -> reachesPkg (snd f) path -> reachesPkg (TStruct fs) path
| reach_param ps rs va v path :
    In v ps -> reachesPkg (snd v) path -> reachesPkg (TSignature ps rs va) path
| reach_result ps rs va v path :
    In v rs -> reachesPkg (snd v) path -> reachesPkg (TSignature ps rs va) path.

(** ** Package models and the shared import maps

    [PackageDesc.Imports] is a Go map, i.e. a reference: the copy of a
    [PackageDesc] that [generate] takes out of the model shares its
    import map with the model.  Maps live in a store indexed by
    references. *)

Definition loc := positive.
Definition Store := gmap loc (gset string).

Record InterfaceDesc := mkInterfaceDesc {
  id_Name : string;
  id_Methods : list Func;
  id_TypeParams : list (string * string)
}.

Record PackageDesc := mkPackageDesc {
  pd_Pkg : option Package;
  pd_Imports : loc;
  pd_Interfaces : list InterfaceDesc
}.

(** [make(map[string]struct{})]: a fresh, empty map. *)
Definition allocMap (st : Store) : Store * loc :=
  let l := fresh (dom st) in (<[l := ∅]> st, l).

(** [descPkg.Imports[imp] = struct{}{}] for each [imp]. *)
Definition addImports (st : Store) (l : loc) (imps : list string) : Store :=
  match st !! l with
  | Some s => <[l := list_to_set imps ∪ s]> st
  | None => st
  end.

(** ** [quickGoImports] (syrup.go) *)

Definition hasDot (s : string) : bool := containsByte "." s.

(** The [less] function given to [sort.Slice]. *)
Definition importLess (a b : string) : bool :=
  if String.eqb a "" then hasDot b
  else if String.eqb b "" then negb (hasDot a)
  else if hasDot a && negb (hasDot b) then false
  else if negb (hasDot a) && hasDot b then true
  else String.ltb a b.

(** The contract of [sort.Slice(x, less)]: [out] is a permutation of
    [inp] such that [less(out[j], out[i])] fails for all [i < j]. *)
Definition sortSlice (less : string -> string -> bool) (inp out : list string) : Prop :=
  inp ≡ₚ out /\ StronglySorted (fun x y => less y x = false) out.

Definition forcedImports (s : gset string) : gset string :=
  let s1 := {["testing"]} ∪ s in
  let s2 := {["time"]} ∪ s1 in
  {["github.com/stretchr/testify/mock"]} ∪ s2.

(** [quickGoImports(descPkg)]: inserts the three forced imports into the
    map [descPkg.Imports] (so into the store), ranges over the map in
    an unspecified order [iter] and sorts [""] plus the keys. *)
Definition quickGoImports (st : Store) (d : PackageDesc) (st' : Store) (out : list string) : Prop :=
  exists imps iter,
    st !! pd_Imports d = Some imps /\
    st' = <[pd_Imports d := forcedImports imps]> st /\
    iter ≡ₚ elements (forcedImports imps) /\
    sortSlice importLess ("" :: iter) out.

(** [ImportsData] and [Syrup.WriteImports] up to the template execution. *)
Record ImportsData := mkImportsData { imp_Name : string; imp_Imports : list string }.

Definition WriteImports (st : Store) (d : PackageDesc) (st' : Store) (data : ImportsData) : Prop :=
  exists p, pd_Pkg d = Some p /\ imp_Name data = pkg_Name p /\
    quickGoImports st d st' (imp_Imports data).

(** An executable instance of [quickGoImports]: iteration in the order
    of [elements], sorting by merge sort. *)
Definition importLe (x y : string) : Prop := importLess y x = false.

#[global] Instance importLe_dec : RelDecision importLe :=
  fun x y => decide (importLess y x = false).

Definition quickGoImportsRun (st : Store) (d : PackageDesc) : option (Store * list string) :=
  match st !! pd_Imports d with
  | Some imps =>
      Some (<[pd_Imports d := forcedImports imps]> st,
            merge_sort importLe ("" :: elements (forcedImports imps)))
  | None => None
  end.

(** ** Model building ([processSingleFile], [walk], mocktail.go)

    The package loading, the scope lookups and the annotation parsing are
    done by [go/packages] and [bufio]; the builders below start from
    their results: the declared objects of a scope, in the sorted order
    of [scope.Names()], or the lookup result of each annotation line, in
    file order ([None] when [Lookup] returns [nil]). *)

Record Obj := mkObj {
  obj_Name : string;
  obj_Exported : bool;
  obj_Pkg : Package;
  (** [Some tps] when [obj.Type()] is a [*types.Named] with type parameters [tps] *)
  obj_Named : option (list (string * string));
  (** [Some methods] when the underlying type is a [*types.Interface] *)
  obj_Interface : option (list Func)
}.

(** The method loop shared by both builders: methods are collected and
    their imports added to the package's import map. *)
Fixpoint collectMethods (st : Store) (l : loc) (path : string) (ms : list Func)
    (acc : list Func) : Store * list Func :=
  match ms with
  | [] => (st, acc)
  | m :: ms' => collectMethods (addImports st l (getMethodImports m path)) l path ms' (app acc [m])
  end.

Fixpoint singleFileLoop (st : Store) (l : loc) (pkg : Package) (scope : list Obj)
    (ifaces : list InterfaceDesc) : Store * list InterfaceDesc :=
  match scope with
  | [] => (st, ifaces)
  | obj :: scope' =>
      if obj_Exported obj then
        match obj_Named obj, obj_Interface obj with
        | Some _, Some ms =>
            let '(st', methods) := collectMethods st l (pkg_Path pkg) ms [] in
            let desc := mkInterfaceDesc (obj_Name obj) methods [] in
            singleFileLoop st' l pkg scope'
              (if Nat.ltb 0 (length methods) then app ifaces [desc] else ifaces)
        | _, _ => singleFileLoop st l pkg scope' ifaces
        end
      else singleFileLoop st l pkg scope' ifaces
  end.

(** [processSingleFile] from the loaded package on; [outputKey] is
    [filepath.Join(filepath.Dir(sourceFile), srcMockFile)]. *)
Definition processSingleFile (st : Store) (pkg : Package) (scope : list Obj) (outputKey : string)
    : Store * list (string * PackageDesc) :=
  let '(st0, l) := allocMap st in
  let '(st1, ifaces) := singleFileLoop st0 l pkg scope [] in
  (st1, if Nat.ltb 0 (length ifaces) then [(outputKey, mkPackageDesc (Some pkg) l ifaces)] else []).

(** The annotation loop of [walk] for one [mock_test.go] file. *)
Fixpoint walkLoop (st : Store) (l : loc) (pkg : option Package) (anns : list (option Obj))
    (ifaces : list InterfaceDesc) : string + (Store * option Package * list InterfaceDesc) :=
  match anns with
  | [] => inr (st, pkg, ifaces)
  | None :: anns' => walkLoop st l pkg anns' ifaces
  | Some lookup :: anns' =>
      let pkg' := match pkg with None => obj_Pkg lookup | Some p => p end in
      let tps := match obj_Named lookup with Some tps => tps | None => [] end in
      match obj_Interface lookup with
      | None => inl "is not an interface"
      | Some ms =>
          let '(st', methods) := collectMethods st l (pkg_Path pkg') ms [] in
          walkLoop st' l (Some pkg') anns'
            (app ifaces [mkInterfaceDesc (obj_Name lookup) methods tps])
      end
  end.

(** The body of the [filepath.WalkDir] callback for a [mock_test.go]
    file [fp]. *)
Definition walkFile (st : Store) (fp : string) (anns : list (option Obj))
    : string + (Store * list (string * PackageDesc)) :=
  let '(st0, l) := allocMap st in
  match walkLoop st0 l None anns [] with
  | inl e => inl e
  | inr (st1, pkg, ifaces) =>
      inr (st1, if Nat.ltb 0 (length ifaces) then [(fp, mkPackageDesc pkg l ifaces)] else [])
  end.

(** ** [generate] (mocktail.go)

    The template executions, [format.Source] and [os.WriteFile] are
    collaborators: each render step yields the text it appends to the
    buffer or fails.  [os.WriteFile] opens the file with [O_CREATE] and
    [O_TRUNC] before it writes, so a failed write may leave the output
    file created, truncated or partly written: [writeFileLeft out src] is
    what a failed write of [src] to [out] leaves there, [None] when the
    file could not be opened at all.  The model is a Go map, so the packages come in an unspecified iteration
    order, given here as the list [pkgs]. *)

Section Generate.

Variable writeImports : PackageDesc -> option string.
Variable writeMockBase : InterfaceDesc -> bool -> option string.
Variable mockMethod : PackageDesc -> InterfaceDesc -> Func -> option string.
Variable callWrapper : PackageDesc -> InterfaceDesc -> Func -> list Func -> option string.
Variable formatSource : string -> option string.
Variable writeFileOk : string -> string -> bool.
Variable writeFileLeft : string -> string -> option string.
Variable fileDir : string -> string.

Definition outputMockFile := "mock_gen_test.go".
Definition outputExportedMockFile := "mock_gen.go".

Definition optBind {A B} (o : option A) (f : A -> option B) : option B :=
  match o with Some a => f a | None => None end.

Fixpoint renderMethods (pd : PackageDesc) (iface : InterfaceDesc) (ms : list Func) (buf : string)
    : option string :=
  match ms with
  | [] => Some buf
  | m :: ms' =>
      optBind (mockMethod pd iface m) (fun t1 =>
      optBind (callWrapper pd iface m (id_Methods iface)) (fun t2 =>
      renderMethods pd iface ms' (buf +:+ t1 +:+ t2)))
  end.

Fixpoint renderInterfaces (exported : bool) (pd : PackageDesc) (ifaces : list InterfaceDesc) (buf : string)
    : option string :=
  match ifaces with
  | [] => Some buf
  | iface :: ifaces' =>
      optBind (writeMockBase iface exported) (fun t =>
      optBind (renderMethods pd iface (id_Methods iface) (buf +:+ t +:+ String "010"%char EmptyString)) (fun buf' =>
      renderInterfaces exported pd ifaces' buf'))
  end.

Definition renderPackage (exported : bool) (pd : PackageDesc) : option string :=
  optBind (writeImports pd) (fun t => renderInterfaces exported pd (pd_Interfaces pd) t).

Definition outPath (exported : bool) (fp : string) : string :=
  fileDir fp +:+ "/" +:+ (if exported then outputExportedMockFile else outputMockFile).

(** The files written so far and the error that ended the run, if any. *)
Fixpoint generate (exported : bool) (pkgs : list (string * PackageDesc)) (fs : gmap string string)
    : gmap string string * option string :=
  match pkgs with
  | [] => (fs, None)
  | (fp, pd) :: pkgs' =>
      match renderPackage exported pd with
      | None => (fs, Some "template")
      | Some buf =>
          match formatSource buf with
          | None => (fs, Some "source")
          | Some src =>
              let out := outPath exported fp in
              if writeFileOk out src then generate exported pkgs' (<[out := src]> fs)
              else
                (match writeFileLeft out src with
                 | None => fs
                 | Some part => <[out := part]> fs
                 end, Some "write file")
          end
      end
  end.

End Generate.

(** ** Statements read off the spec *)

(** The qualification rule of a named type: [own] is the enclosing
    package path, [str] the type's [String()], [r] the rendering. *)
Definition namedRenderingSpec (own name : string) (pkg : option Package) (str r : string) : Prop :=
  match pkg with
  | Some p =>
      (pkg_Path p = own -> r = name) /\
      (pkg_Path p <> own -> r = pkg_Name p +:+ "." +:+ name)
  | None =>
      (str = name -> containsByte "/" name = false -> r = name) /\
      containsByte "/" r = false /\
      (exists pre, str = pre +:+ r /\ (pre = "" \/ exists pre', pre = pre' +:+ "/"))
  end.

(** The elements of a list paired with their positions, from [i] on. *)
Fixpoint indexed {A} (i : nat) (l : list A) : list (nat * A) :=
  match l with
  | [] => []
  | x :: l' => (i, x) :: indexed (S i) l'
  end.

(** The closed forms of the parameter loop of [MockMethod]: what one
    parameter at position [k] contributes to [paramsData], [callArgs]
    and [onCallArgs]. *)
Section MockArgs.

Variable TypeString : typ -> string.

Definition nonContext (kp : nat * var) : bool := negb (isContext TypeString (snd kp)).

Definition paramDataOf (s : Syrup) (n : nat) (kp : nat * var) : GoParameter :=
  let '(k, p) := kp in
  mkGoParameter (if isContext TypeString p then "_" else getParamName p k)
    (getTypeName TypeString s (var_Type p) (Nat.eqb k (n - 1))) (isContext TypeString p) 0.

Definition callArgOf (kp : nat * var) : string := getParamName (snd kp) (fst kp).

Definition onCallArgOf (kp : nat * var) : string :=
  if isSignature (var_Type (snd kp)) then "mock.Anything" else getParamName (snd kp) (fst kp).

End MockArgs.

(** ** Concrete inputs *)

Definition exContextType : typ := TNamed "Context" (Some (mkPackage "context" "context")).

(** [Put(xs ...int)] of an interface [Store] in [example.com/app]. *)
Definition exVariadicSyrup : Syrup :=
  mkSyrup "example.com/app" "Store" "Put"
    (mkSignature [("xs", TSlice (TBasic "int"))] [] true) [].

(** [Get(ctx context.Context, string, f func(int)) error]. *)
Definition exContextSyrup : Syrup :=
  mkSyrup "example.com/app" "Store" "Get"
    (mkSignature [("ctx", exContextType); ("", TBasic "string");
                  ("f", TSignature [("", TBasic "int")] [] false)]
                 [("", TNamed "error" None)] false) [].

(** [List(ids []ids.ID) error] with [ids] = [example.com/ids]. *)
Definition exForeignFunc : Func :=
  mkFunc "List"
    (mkSignature [("ids", TSlice (TNamed "ID" (Some (mkPackage "example.com/ids" "ids"))))]
                 [("", TNamed "error" None)] false).

(** The three blocks of [importLess]: simple paths, then the [""]
    separator, then dotted paths. *)
Definition importClass (s : string) : nat :=
  if String.eqb s "" then 1 else if hasDot s then 2 else 0.

(** A package whose import map (reference [1]) holds two collected paths. *)
Definition exImportsStore : Store := {[ 1%positive := {[ "example.com/ids"; "context" ]} ]}.
Definition exImportsPkg : PackageDesc :=
  mkPackageDesc (Some (mkPackage "example.com/app" "app")) 1%positive [].

(** A method with 27 unnamed [int] parameters. *)
Definition exManyParamsSyrup : Syrup :=
  mkSyrup "example.com/app" "Store" "Many"
    (mkSignature (replicate 27 (("", TBasic "int") : var)) [] false) [].

(** An exported named interface type without methods. *)
Definition exEmptyObj : Obj :=
  mkObj "Empty" true (mkPackage "example.com/app" "app") (Some []) (Some []).

(** Collaborators of [generate]: every template renders, the import
    block of the package with import map [2] renders as text that
    [format.Source] rejects, and every write succeeds. *)
Definition exWriteImports (pd : PackageDesc) : option string :=
  Some (if Pos.eqb (pd_Imports pd) 2 then "bad" else "package a").
Definition exWriteMockBase (_ : InterfaceDesc) (_ : bool) : option string := Some "".
Definition exMockMethod (_ : PackageDesc) (_ : InterfaceDesc) (_ : Func) : option string := Some "".
Definition exCallWrapper (_ : PackageDesc) (_ : InterfaceDesc) (_ : Func) (_ : list Func) : option string :=
  Some "".
Definition exFormatSource (src : string) : option string :=
  if String.eqb src "bad" then None else Some src.
Definition exWriteFileOk (_ _ : string) : bool := true.
Definition exWriteFileLeft (_ _ : string) : option string := Some "".
Definition exFileDir (fp : string) : string := fp.

Definition exGenerate : bool -> list (string * PackageDesc) -> gmap string string ->
    gmap string string * option string :=
  generate exWriteImports exWriteMockBase exMockMethod exCallWrapper exFormatSource
    exWriteFileOk exWriteFileLeft exFileDir.

(** Two packages; the second one fails to format. *)
Definition exPkgs : list (string * PackageDesc) :=
  [("a", mkPackageDesc None 1%positive []); ("b", mkPackageDesc None 2%positive [])].

(** ** The annotation lines of [walk] (mocktail.go) *)

Definition commentTagPattern : string := "// mocktail:".

(** [strings.Index(s, substr)]: the index of the first occurrence of
    [substr] in [s], [-1] when absent. *)
Fixpoint indexOf (substr s : string) : Z :=
  if String.prefix substr s then 0%Z
  else
    match s with
    | EmptyString => (-1)%Z
    | String _ s' =>
        let r := indexOf substr s' in
        if (r =? -1)%Z then (-1)%Z else (r + 1)%Z
    end.

(** One scanned line: skipped when empty or without the tag, otherwise
    the text after the tag, [line[i+len(commentTagPattern):]]. *)
Definition annotationTarget (line : string) : option string :=
  if String.eqb line "" then None
  else
    let i := indexOf commentTagPattern line in
    if (i <=? -1)%Z then None
    else Some (sliceFrom line (Z.to_nat i + String.length commentTagPattern)).

Section Annotation.

(** [path.Join(moduleName, elem)] *)
Variable pathJoin : string -> string -> string.

(** The import path and interface name of an annotation target.
    [filePkgName] is [filepath.Rel(root, filepath.Dir(fp))], [None] when
    it fails, which ends the walk with that error. *)
Definition annotationImport (moduleName : string) (filePkgName : option string)
    (interfaceName : string) : string + (string * string) :=
  let index := lastIndexByte "." interfaceName in
  if (index >? 0)%Z then
    inr (pathJoin moduleName (String.substring 0 (Z.to_nat index) interfaceName),
         sliceFrom interfaceName (Z.to_nat index + 1))
  else
    match filePkgName with
    | Some rel => inr (pathJoin moduleName rel, interfaceName)
    | None => inl "rel"
    end.

End Annotation.

(** ** [Writer] (syrup.go): [Print], [Printf] and [Println] keep the
    first error and do nothing once an error is recorded.  [Fprint],
    [Fprintf] and [Fprintln] are the [fmt] functions, acting on the state
    [W] of the wrapped [io.Writer]. *)

Section GoWriter.

Variables (W Err Arg : Type).
Variable Fprint : W -> list Arg -> W * option Err.
Variable Fprintf : W -> string -> list Arg -> W * option Err.
Variable Fprintln : W -> list Arg -> W * option Err.

Record Writer := mkWriter { w_writer : W; w_err : option Err }.

Definition Writer_Err (w : Writer) : option Err := w_err w.

Definition Writer_Print (w : Writer) (a : list Arg) : Writer :=
  match w_err w with
  | Some _ => w
  | None => let '(out, e) := Fprint (w_writer w) a in mkWriter out e
  end.

Definition Writer_Printf (w : Writer) (pattern : string) (a : list Arg) : Writer :=
  match w_err w with
  | Some _ => w
  | None => let '(out, e) := Fprintf (w_writer w) pattern a in mkWriter out e
  end.

Definition Writer_Println (w : Writer) (a : list Arg) : Writer :=
  match w_err w with
  | Some _ => w
  | None => let '(out, e) := Fprintln (w_writer w) a in mkWriter out e
  end.

(** A sequence of calls on one [Writer]. *)
Inductive writerCall :=
| CallPrint (a : list Arg)
| CallPrintf (pattern : string) (a : list Arg)
| CallPrintln (a : list Arg).

Definition writerStep (w : Writer) (c : writerCall) : Writer :=
  match c with
  | CallPrint a => Writer_Print w a
  | CallPrintf pattern a => Writer_Printf w pattern a
  | CallPrintln a => Writer_Println w a
  end.

Definition writerRun (w : Writer) (cs : list writerCall) : Writer := fold_left writerStep cs w.

End GoWriter.

(** ** What the model builders record *)

(** The imports of a list of methods, as a set. *)
Definition methodImportSet (path : string) (ms : list Func) : gset string :=
  list_to_set (flat_map (fun m => getMethodImports m path) ms).

(** The methods of an annotation's object. *)
Definition objMethods (o : Obj) : list Func :=
  match obj_Interface o with Some ms => ms | None => [] end.

(** The interface entry [walk] records for a found annotation. *)
Definition walkDesc (o : Obj) : InterfaceDesc :=
  mkInterfaceDesc (obj_Name o) (objMethods o)
    (match obj_Named o with Some tps => tps | None => [] end).

(** The objects of the scope whose methods [processSingleFile] scans:
    exported named types whose underlying type is an interface. *)
Definition scannedMethods (o : Obj) : list Func :=
  if obj_Exported o then
    match obj_Named o, obj_Interface o with
    | Some _, Some ms => ms
    | _, _ => []
    end
  else [].

Definition singleFileKeeps (o : Obj) : bool := Nat.ltb 0 (length (scannedMethods o)).

Definition singleFileDesc (o : Obj) : InterfaceDesc :=
  mkInterfaceDesc (obj_Name o) (scannedMethods o) [].

(** The output path of each model entry. *)
Definition outPaths (fileDir : string -> string) (exported : bool)
    (pkgs : list (string * PackageDesc)) : list string :=
  map (fun e => outPath fileDir exported (fst e)) pkgs.

(** The digits [0]-[9]. *)
Definition isDigit (c : ascii) : bool :=
  (48 <=? N_of_ascii c)%N && (N_of_ascii c <=? 57)%N.

Fixpoint allBytes (f : ascii -> bool) (s : string) : bool :=
  match s with
  | EmptyString => true
  | String c s' => f c && allBytes f s'
  end.

(** ** [writeMockBase] (syrup.go): the data of the ["mockBase"] template,
    and the [Syrup] that [generate] builds for each method of an
    interface. *)

Record MockBaseData := mkMockBaseData {
  mb_InterfaceName : string;
  mb_ConstructorPrefix : string;
  mb_TypeParamsDecl : string;
  mb_TypeParamsUse : string
}.

Definition writeMockBaseData (interfaceDesc : InterfaceDesc) (exported : bool) : MockBaseData :=
  let constructorPrefix := if exported then "New" else "new" in
  let '(typeParamsDecl, typeParamsUse) :=
    match id_TypeParams interfaceDesc with
    | [] => ("", "")
    | tps =>
        ("[" +:+ join (map (fun tp => fst tp +:+ " " +:+ snd tp) tps) ", " +:+ "]",
         "[" +:+ join (map fst tps) ", " +:+ "]")
    end in
  mkMockBaseData (id_Name interfaceDesc) constructorPrefix typeParamsDecl typeParamsUse.

Definition generateSyrup (pkg : Package) (interfaceDesc : InterfaceDesc) (method : Func) : Syrup :=
  mkSyrup (pkg_Path pkg) (id_Name interfaceDesc) (func_Name method) (func_Sig method)
    (id_TypeParams interfaceDesc).

(** A writer that accepts at most three values and then reports a short
    write; [Printf] ignores its pattern and [Println] adds a newline value. *)
Definition exFprint (w : nat) (a : list nat) : nat * option string :=
  if Nat.leb 3 (w + length a) then (w, Some "short write") else (w + length a, None).
Definition exFprintf (w : nat) (_ : string) (a : list nat) : nat * option string := exFprint w a.
Definition exFprintln (w : nat) (a : list nat) : nat * option string := exFprint w (a ++ [0]).

(** [path.Join] on clean relative elements. *)
Definition exPathJoin (a b : string) : string := a +:+ "/" +:+ b.

(** [Stat() (int, error, string)]: three unnamed results. *)
Definition exResultsSyrup : Syrup :=
  mkSyrup "example.com/app" "Store" "Stat"
    (mkSignature [] [("", TBasic "int"); ("", TNamed "error" None); ("", TBasic "string")] false) [].

(** * Proofs *)

Lemma append_cons (c : ascii) (s1 s2 : string) :
  String c s1 +:+ s2 = String c (s1 +:+ s2).
Proof. reflexivity. Qed.

Lemma append_empty_l (s : string) : "" +:+ s = s.
Proof. reflexivity. Qed.

Lemma append_cons_assoc (pre post : string) (c : ascii) :
  pre +:+ String c post = (pre +:+ String c EmptyString) +:+ post.
Proof.
  induction pre as [|c' pre IH]; [reflexivity|].
  rewrite !append_cons, IH. reflexivity.
Qed.

Lemma containsByte_app_cons (c : ascii) (pre post : string) :
  containsByte c (pre +:+ String c post) = true.
Proof.
  induction pre as [|c' pre IH].
  - simpl. rewrite Ascii.eqb_refl. reflexivity.
  - rewrite append_cons. simpl. rewrite IH. apply orb_true_r.
Qed.

Lemma lastIndexByte_go_spec (c : ascii) (s : string) (i acc : Z) :
  (containsByte c s = false /\ lastIndexByte_go c s i acc = acc) \/
  (exists pre post, s = pre +:+ String c post /\ containsByte c post = false /\
     lastIndexByte_go c s i acc = (i + Z.of_nat (String.length pre))%Z).
Proof.
  revert i acc. induction s as [|c' s IH]; intros i acc.
  - left. split; reflexivity.
  - simpl. destruct (IH (i + 1)%Z (if Ascii.eqb c c' then i else acc))
      as [[Hc Hgo] | (pre & post & -> & Hc & Hgo)].
    + destruct (Ascii.eqb c c') eqn:E.
      * right. apply Ascii.eqb_eq in E as <-.
        exists EmptyString, s. split; [reflexivity|]. split; [exact Hc|].
        rewrite Hgo. simpl. lia.
      * left. rewrite Hc, Hgo. split; reflexivity.
    + right. exists (String c' pre), post.
      split; [reflexivity|]. split; [exact Hc|]. rewrite Hgo. simpl. lia.
Qed.

Lemma substring_full (s : string) : String.substring 0 (String.length s) s = s.
Proof. induction s as [|c s IH]; simpl; [reflexivity|]. rewrite IH. reflexivity. Qed.

Lemma length_append (s1 s2 : string) :
  String.length (s1 +:+ s2) = String.length s1 + String.length s2.
Proof. induction s1 as [|c s1 IH]; [reflexivity|]. rewrite append_cons. simpl. lia. Qed.

Lemma sliceFrom_after (pre post : string) (c : ascii) :
  sliceFrom (pre +:+ String c post) (String.length pre + 1) = post.
Proof.
  unfold sliceFrom. rewrite length_append. simpl.
  replace (String.length pre + S (String.length post) - (String.length pre + 1))
    with (String.length post) by lia.
  induction pre as [|c' pre IH]; simpl.
  - apply substring_full.
  - exact IH.
Qed.

(** C1 *)
(** Claim C1: a named type renders as its bare name when its package is
    the enclosing package, as [<package name>.<name>] when it is another
    package, and, without a package, as the last slash-separated segment
    of its [String()] form, which is the bare name when [String()] is
    the name itself. *)
Theorem getNamedTypeName_qualification (TypeString : typ -> string) (s : Syrup)
    (name : string) (pkg : option Package) (last : bool) :
  namedRenderingSpec (PkgPath s) name pkg (TypeString (TNamed name pkg))
    (getTypeName TypeString s (TNamed name pkg) last).
Proof.
  destruct pkg as [p|]; simpl.
  - split; intros H.
    + rewrite H, String.eqb_refl. reflexivity.
    + apply String.eqb_neq in H. rewrite H. reflexivity.
  - unfold lastIndexByte.
    destruct (lastIndexByte_go_spec "/" (TypeString (TNamed name None)) 0 (-1))
      as [[Hc Hgo] | (pre & post & Hstr & Hc & Hgo)].
    + rewrite Hgo. simpl. split; [|split].
      * intros Hn _. exact Hn.
      * exact Hc.
      * exists EmptyString. split; [reflexivity | left; reflexivity].
    + rewrite Hgo.
      replace ((0 + Z.of_nat (String.length pre) >? -1)%Z) with true by lia.
      replace (Z.to_nat (0 + Z.of_nat (String.length pre) + 1)) with (String.length pre + 1) by lia.
      rewrite Hstr, sliceFrom_after. split; [|split].
      * intros Hn Hnc. rewrite <- Hn in Hnc. rewrite containsByte_app_cons in Hnc. discriminate.
      * exact Hc.
      * exists (pre +:+ "/"). split.
        -- apply append_cons_assoc.
        -- right. exists pre. reflexivity.
Qed.

Lemma mockParamsLoop_closed (TypeString : typ -> string) (s : Syrup) (n i : nat) (ps : list var)
    (pd : list GoParameter) (ca oca : list string) :
  mockParamsLoop TypeString s n i ps (pd, ca, oca) =
    (app pd (map (paramDataOf TypeString s n) (indexed i ps)),
     app ca (map callArgOf (List.filter (nonContext TypeString) (indexed i ps))),
     app oca (map onCallArgOf (List.filter (nonContext TypeString) (indexed i ps)))).
Proof.
  revert i pd ca oca. induction ps as [|p ps IH]; intros i pd ca oca; simpl.
  - rewrite !app_nil_r. reflexivity.
  - unfold mockParamStep. simpl.
    change (nonContext TypeString (i, p)) with (negb (isContext TypeString p)).
    destruct (isContext TypeString p) eqn:Hc; simpl; rewrite IH, <- !app_assoc; reflexivity.
Qed.

Lemma mockResultsLoop_closed (TypeString : typ -> string) (s : Syrup) (i : nat) (rs : list var)
    (acc : list GoResult) :
  mockResultsLoop TypeString s i rs acc =
    app acc (map (fun kr => mkGoResult (getResultName (snd kr) (fst kr))
                              (getTypeName TypeString s (var_Type (snd kr)) false))
               (indexed i rs)).
Proof.
  revert i acc. induction rs as [|r rs IH]; intros i acc; simpl.
  - rewrite app_nil_r. reflexivity.
  - rewrite IH, <- app_assoc. reflexivity.
Qed.

Lemma indexed_lookup {A} (i k : nat) (l : list A) :
  indexed i l !! k = (fun x => (i + k, x)) <$> l !! k.
Proof.
  revert i k. induction l as [|x l IH]; intros i k; [reflexivity|].
  destruct k as [|k]; simpl.
  - rewrite Nat.add_0_r. reflexivity.
  - rewrite IH. destruct (l !! k); simpl; [|reflexivity].
    do 3 f_equal. lia.
Qed.

Lemma length_indexed {A} (i : nat) (l : list A) : length (indexed i l) = length l.
Proof. revert i. induction l as [|x l IH]; intros i; simpl; [reflexivity|]. rewrite IH. reflexivity. Qed.

Lemma MockMethod_fields (TypeString : typ -> string) (s : Syrup) :
  let params := sig_Params (Sig s) in
  mm_Params (MockMethod TypeString s) =
    map (paramDataOf TypeString s (length params)) (indexed 0 params) /\
  mm_CallArgs (MockMethod TypeString s) =
    map callArgOf (List.filter (nonContext TypeString) (indexed 0 params)) /\
  mm_OnCallArgs (MockMethod TypeString s) =
    map onCallArgOf (List.filter (nonContext TypeString) (indexed 0 params)) /\
  mm_Results (MockMethod TypeString s) =
    map (fun kr => mkGoResult (getResultName (snd kr) (fst kr))
                     (getTypeName TypeString s (var_Type (snd kr)) false))
      (indexed 0 (sig_Results (Sig s))).
Proof.
  simpl. unfold MockMethod. rewrite mockParamsLoop_closed. simpl.
  rewrite mockResultsLoop_closed. simpl. repeat split.
Qed.

Lemma callInputParams_acc (TypeString : typ -> string) (s : Syrup) (ps : list var) :
  forall i pos acc q, q ∈ acc -> q ∈ callInputParams TypeString s i pos ps acc.
Proof.
  induction ps as [|p ps IH]; intros i pos acc q Hq; simpl; [exact Hq|].
  destruct (isContext TypeString p); apply IH; [exact Hq|].
  apply elem_of_app. left. exact Hq.
Qed.

Lemma callInputParams_slot (TypeString : typ -> string) (s : Syrup) (ps : list var) :
  forall i pos acc k p, ps !! k = Some p -> isContext TypeString p = false ->
  exists q, q ∈ callInputParams TypeString s i pos ps acc /\
    par_Name q = "_" +:+ getParamName p (i + k) /\
    par_Type q = getTypeName TypeString s (var_Type p) false.
Proof.
  induction ps as [|p0 ps IH]; intros i pos acc k p Hk Hc; [discriminate|].
  destruct k as [|k]; simpl in Hk.
  - injection Hk as <-. simpl. rewrite Hc.
    exists (mkGoParameter ("_" +:+ getParamName p0 i) (getTypeName TypeString s (var_Type p0) false) false pos).
    split; [apply callInputParams_acc; set_solver|].
    simpl. rewrite Nat.add_0_r. split; reflexivity.
  - destruct (IH (S i) (if isContext TypeString p0 then pos else S pos)
                (if isContext TypeString p0 then acc else
                   app acc [mkGoParameter ("_" +:+ getParamName p0 i)
                              (getTypeName TypeString s (var_Type p0) false) false pos])
                k p Hk Hc) as (q & Hq & Hn & Ht).
    exists q. split; [|split; [|exact Ht]].
    + simpl. destruct (isContext TypeString p0); exact Hq.
    + rewrite Hn. replace (i + S k) with (S i + k) by lia. reflexivity.
Qed.

(** C2 *)
(** Claim C2 (as amended): the resolver renders a slice as ["..."] plus
    its element exactly when the signature being generated is variadic
    and the caller flags the slice as the final parameter, and as
    ["[]"] plus its element otherwise; in the mock stub only the last
    parameter is flagged and results never are, while the typed-run
    input parameters of the call wrapper are never flagged. *)
Theorem slice_rendering_sites (TypeString : typ -> string) (s : Syrup) (methods : list Func) :
  (forall e last,
     getTypeName TypeString s (TSlice e) last =
       (if sig_Variadic (Sig s) && last then "..." else "[]") +:+ getTypeName TypeString s e false) /\
  (forall k x e,
     sig_Params (Sig s) !! k = Some ((x, TSlice e) : var) ->
     par_Type <$> mm_Params (MockMethod TypeString s) !! k =
       Some ((if sig_Variadic (Sig s) && Nat.eqb k (length (sig_Params (Sig s)) - 1)
              then "..." else "[]") +:+ getTypeName TypeString s e false)) /\
  (forall k x e,
     sig_Results (Sig s) !! k = Some ((x, TSlice e) : var) ->
     res_Type <$> mm_Results (MockMethod TypeString s) !! k =
       Some ("[]" +:+ getTypeName TypeString s e false)) /\
  (forall k x e,
     sig_Params (Sig s) !! k = Some ((x, TSlice e) : var) ->
     isContext TypeString (x, TSlice e) = false ->
     exists q, q ∈ cd_InputParams (Call TypeString s methods) /\
       par_Name q = "_" +:+ getParamName (x, TSlice e) k /\
       par_Type q = "[]" +:+ getTypeName TypeString s e false).
Proof.
  destruct (MockMethod_fields TypeString s) as (Hp & _ & _ & Hr).
  split; [|split; [|split]].
  - intros e last. simpl. destruct (sig_Variadic (Sig s) && last); reflexivity.
  - intros k x e Hk. rewrite Hp, list_lookup_fmap, indexed_lookup, Hk. simpl.
    destruct (sig_Variadic (Sig s) && Nat.eqb k (length (sig_Params (Sig s)) - 1)); reflexivity.
  - intros k x e Hk. rewrite Hr, list_lookup_fmap, indexed_lookup, Hk. simpl.
    destruct (sig_Variadic (Sig s)); reflexivity.
  - intros k x e Hk Hc. unfold Call. simpl.
    destruct (callInputParams_slot TypeString s _ 0 0 [] k _ Hk Hc) as (q & Hq & Hn & Ht).
    exists q. split; [exact Hq|]. split; [exact Hn|]. rewrite Ht. simpl.
    destruct (sig_Variadic (Sig s)); reflexivity.
Qed.

(** C6 *)
(** Claim C6: when the first parameter is context-like, the stub's
    parameter list keeps a slot ["_"] for it, while the call arguments
    and the on-call arguments hold one entry per non-context parameter,
    in order (its name, or the wildcard matcher for a function-typed
    parameter in the on-call list), and none for the context. *)
Theorem mockMethod_context_elision (TypeString : typ -> string) (s : Syrup) (c : var) (rest : list var) :
  sig_Params (Sig s) = c :: rest ->
  isContext TypeString c = true ->
  mm_Params (MockMethod TypeString s) !! 0 =
    Some (mkGoParameter "_" (getTypeName TypeString s (var_Type c) (Nat.eqb 0 (length rest))) true 0) /\
  length (mm_Params (MockMethod TypeString s)) = S (length rest) /\
  mm_CallArgs (MockMethod TypeString s) =
    map callArgOf (List.filter (nonContext TypeString) (indexed 1 rest)) /\
  mm_OnCallArgs (MockMethod TypeString s) =
    map onCallArgOf (List.filter (nonContext TypeString) (indexed 1 rest)).
Proof.
  intros Hps Hc.
  destruct (MockMethod_fields TypeString s) as (Hp & Hca & Hoca & _).
  rewrite Hps in Hp, Hca, Hoca.
  split; [|split; [|split]].
  - rewrite Hp. simpl. rewrite Hc, Nat.sub_0_r. reflexivity.
  - rewrite Hp, length_map. simpl. f_equal.
    apply length_indexed.
  - rewrite Hca. simpl. change (nonContext TypeString (0, c)) with (negb (isContext TypeString c)).
    rewrite Hc. reflexivity.
  - rewrite Hoca. simpl. change (nonContext TypeString (0, c)) with (negb (isContext TypeString c)).
    rewrite Hc. reflexivity.
Qed.

(** C10 *)
(** Claim C10: in the stub's on-call argument list every non-context
    parameter whose type is a function type (a [*types.Signature]
    descriptor) contributes ["mock.Anything"] and every other one its
    name; the plain call-argument list holds the names of all
    non-context parameters.  Both lists follow parameter order. *)
Theorem mockMethod_onCall_matchers (TypeString : typ -> string) (s : Syrup) :
  mm_OnCallArgs (MockMethod TypeString s) =
    map (fun kp => if isSignature (var_Type (snd kp)) then "mock.Anything"
                   else getParamName (snd kp) (fst kp))
      (List.filter (fun kp => negb (isContext TypeString (snd kp))) (indexed 0 (sig_Params (Sig s)))) /\
  mm_CallArgs (MockMethod TypeString s) =
    map (fun kp => getParamName (snd kp) (fst kp))
      (List.filter (fun kp => negb (isContext TypeString (snd kp))) (indexed 0 (sig_Params (Sig s)))).
Proof.
  destruct (MockMethod_fields TypeString s) as (_ & Hca & Hoca & _).
  split; [exact Hoca | exact Hca].
Qed.

Lemma getTypeImports_reaches (t : typ) (path : string) :
  reachesPkg t path -> In path (getTypeImports t).
Proof.
  induction 1; simpl.
  - left. reflexivity.
  - exact IHreachesPkg.
  - exact IHreachesPkg.
  - exact IHreachesPkg.
  - apply in_or_app. left. exact IHreachesPkg.
  - apply in_or_app. right. exact IHreachesPkg.
  - apply in_flat_map. exists f. split; assumption.
  - apply in_or_app. left. apply in_flat_map. exists v. split; assumption.
  - apply in_or_app. right. apply in_flat_map. exists v. split; assumption.
Qed.

(** C3 *)
(** Claim C3 (as amended): the import paths collected for a method are
    never empty and never the owning package's own path, and they
    include every other package path of a named type reached from a
    parameter or result type through slices, arrays, maps, pointers,
    struct fields and function parameters and results; the package of a
    context-like parameter is collected like any other. *)
Theorem getMethodImports_paths (m : Func) (own : string) :
  (forall path, In path (getMethodImports m own) -> path <> "" /\ path <> own) /\
  (forall v path,
     In v (sig_Params (func_Sig m)) \/ In v (sig_Results (func_Sig m)) ->
     reachesPkg (var_Type v) path -> path <> "" -> path <> own ->
     In path (getMethodImports m own)).
Proof.
  unfold getMethodImports. split.
  - intros path Hin. apply filter_In in Hin as [_ Hf].
    apply andb_true_iff in Hf as [H1 H2].
    apply negb_true_iff, String.eqb_neq in H1. apply negb_true_iff, String.eqb_neq in H2.
    split; assumption.
  - intros v path Hv Hr Hne Hown. apply filter_In. split.
    + unfold getTupleImports. apply in_flat_map.
      destruct Hv as [Hv|Hv];
        [exists (sig_Params (func_Sig m)) | exists (sig_Results (func_Sig m))];
        (split; [simpl; tauto|]); apply in_flat_map; exists v;
        (split; [exact Hv | apply getTypeImports_reaches; exact Hr]).
    + apply String.eqb_neq in Hne. apply String.eqb_neq in Hown.
      rewrite Hne, Hown. reflexivity.
Qed.

Lemma importLess_blocks (a b : string) :
  importLess a b =
    Nat.ltb (importClass a) (importClass b) ||
    (Nat.eqb (importClass a) (importClass b) && String.ltb a b).
Proof.
  unfold importLess, importClass.
  destruct (String.eqb_spec a ""); destruct (String.eqb_spec b ""); subst; simpl;
    [reflexivity | destruct (hasDot b); reflexivity
    | destruct (hasDot a); reflexivity | ].
  destruct (hasDot a), (hasDot b); reflexivity.
Qed.

Lemma string_ltb_leb (x y : string) : String.ltb y x = negb (String.leb x y).
Proof.
  unfold String.ltb, String.leb. rewrite (String.compare_antisym x y).
  destruct (String.compare y x); reflexivity.
Qed.

Lemma importLe_iff (x y : string) :
  importLe x y <->
    importClass x < importClass y \/
    (importClass x = importClass y /\ String.leb x y = true).
Proof.
  unfold importLe. rewrite importLess_blocks, string_ltb_leb.
  destruct (Nat.ltb_spec (importClass y) (importClass x)) as [Hlt|Hge];
  destruct (Nat.eqb_spec (importClass y) (importClass x)) as [Heq|Hne];
  destruct (String.leb x y); simpl; split; intros Hc;
    try discriminate; try lia; try reflexivity;
    try (destruct Hc as [Hc|[Hc1 Hc2]]; [lia | try discriminate; try lia]);
    try (right; split; [lia | reflexivity]); try (left; lia).
Qed.

Lemma string_leb_trans (x y z : string) :
  String.leb x y = true -> String.leb y z = true -> String.leb x z = true.
Proof.
  intros H1 H2. apply Is_true_true.
  assert (String.le x y) as Hxy by (apply Is_true_true; exact H1).
  assert (String.le y z) as Hyz by (apply Is_true_true; exact H2).
  change (String.le x z). etrans; eassumption.
Qed.

Lemma importLe_antisym (x y : string) : importLe x y -> importLe y x -> x = y.
Proof.
  rewrite !importLe_iff. intros [H1|[H1 H2]] [H3|[H3 H4]]; try lia.
  apply String.leb_antisym; assumption.
Qed.

#[local] Instance importLe_total : Total importLe.
Proof.
  intros x y. rewrite !importLe_iff.
  destruct (Nat.lt_total (importClass x) (importClass y)) as [H|[H|H]]; [left; left; exact H| |right; left; exact H].
  destruct (String.leb_total x y); [left | right]; right; split; auto.
Qed.

#[local] Instance importLe_trans : Transitive importLe.
Proof.
  intros x y z. rewrite !importLe_iff.
  intros [H1|[H1 H2]] [H3|[H3 H4]]; try (left; lia).
  right. split; [lia|]. eapply string_leb_trans; eassumption.
Qed.

Lemma StronglySorted_lookup_lt {A} (R : A -> A -> Prop) (l : list A) :
  StronglySorted R l -> forall i j a b, i < j -> l !! i = Some a -> l !! j = Some b -> R a b.
Proof.
  induction 1 as [|x l Hs IH Hall]; intros i j a b Hij Hi Hj; [discriminate|].
  destruct i as [|i], j as [|j]; simpl in Hi, Hj; try lia.
  - injection Hi as <-. rewrite Forall_forall in Hall. apply Hall.
    apply list_elem_of_lookup. eauto.
  - apply (IH i j); [lia | assumption | assumption].
Qed.

Lemma quickGoImportsRun_sound (st : Store) (d : PackageDesc) (st' : Store) (out : list string) :
  quickGoImportsRun st d = Some (st', out) -> quickGoImports st d st' out.
Proof.
  unfold quickGoImportsRun. destruct (st !! pd_Imports d) as [imps|] eqn:E; [|discriminate].
  intros H. injection H as <- <-.
  exists imps, (elements (forcedImports imps)). split; [exact E|]. split; [reflexivity|].
  split; [reflexivity|]. split.
  - symmetry. apply merge_sort_Permutation.
  - apply (StronglySorted_merge_sort importLe).
Qed.

Lemma forced_in_output (st : Store) (d : PackageDesc) (st' : Store) (out : list string) (x : string) :
  quickGoImports st d st' out ->
  x ∈ ({["testing"; "time"; "github.com/stretchr/testify/mock"]} : gset string) ->
  x ∈ out.
Proof.
  intros (imps & iter & _ & _ & Hiter & Hperm & _) Hx.
  rewrite <- Hperm. right. rewrite Hiter. apply elem_of_elements.
  unfold forcedImports. set_solver.
Qed.

(** C4 *)
(** Claim C4: the import list rendered for a package contains the three
    forced paths; of two non-empty entries, a dotted one never precedes
    an undotted one and entries of one block are in lexicographic
    order; and the list depends only on the package's import set, not
    on the map's iteration order. *)
Theorem quickGoImports_blocks (st : Store) (d : PackageDesc) (st' : Store) (out : list string) :
  quickGoImports st d st' out ->
  ("testing" ∈ out /\ "time" ∈ out /\ "github.com/stretchr/testify/mock" ∈ out) /\
  (forall i j a b, i < j -> out !! i = Some a -> out !! j = Some b -> a <> "" -> b <> "" ->
     (hasDot a = true -> hasDot b = true) /\
     (hasDot a = hasDot b -> String.leb a b = true)) /\
  (forall st2 d2 st2' out2, quickGoImports st2 d2 st2' out2 ->
     st2 !! pd_Imports d2 = st !! pd_Imports d -> out2 = out).
Proof.
  intros Hq. split; [|split].
  - split; [|split]; eapply forced_in_output; [exact Hq | set_solver | exact Hq | set_solver | exact Hq | set_solver].
  - destruct Hq as (imps & iter & _ & _ & _ & _ & Hsorted).
    intros i j a b Hij Hi Hj Ha Hb.
    pose proof (StronglySorted_lookup_lt _ _ Hsorted i j a b Hij Hi Hj) as Hab.
    change (importLe a b) in Hab. apply importLe_iff in Hab.
    unfold importClass in Hab.
    apply String.eqb_neq in Ha. apply String.eqb_neq in Hb. rewrite Ha, Hb in Hab.
    destruct (hasDot a), (hasDot b); (split; [intros ?|intros ?]); try reflexivity; try discriminate;
      destruct Hab as [?|[? ?]]; try lia; assumption.
  - intros st2 d2 st2' out2 Hq2 Heq.
    destruct Hq as (imps & iter & E & _ & Hiter & Hperm & Hsorted).
    destruct Hq2 as (imps2 & iter2 & E2 & _ & Hiter2 & Hperm2 & Hsorted2).
    rewrite Heq, E in E2. injection E2 as <-.
    apply (StronglySorted_unique_strong (fun x y => importLess y x = false)).
    + intros x1 x2 _ _ H1 H2. apply importLe_antisym; assumption.
    + exact Hsorted2.
    + exact Hsorted.
    + rewrite <- Hperm2, <- Hperm, Hiter, Hiter2. reflexivity.
Qed.

(** C9 *)
(** Claim C9 (as amended): rendering the imports of a package writes the
    three forced paths into the package's own import map, which the
    model shares: afterwards the map holds the collected paths plus
    ["testing"], ["time"] and the mock package, and no other map of the
    store changes. *)
Theorem writeImports_adds_forced (st : Store) (d : PackageDesc) (st' : Store) (data : ImportsData) :
  WriteImports st d st' data ->
  forall imps, st !! pd_Imports d = Some imps ->
  st' !! pd_Imports d = Some ({["testing"; "time"; "github.com/stretchr/testify/mock"]} ∪ imps) /\
  (forall l, l <> pd_Imports d -> st' !! l = st !! l).
Proof.
  intros (p & _ & _ & imps0 & iter & E & -> & _) imps Himps.
  rewrite E in Himps. injection Himps as <-. split.
  - unfold Store, loc in *. rewrite lookup_insert_eq. f_equal. unfold forcedImports. set_solver.
  - intros l Hl. unfold Store, loc in *. rewrite lookup_insert_ne; [reflexivity|]. congruence.
Qed.

(** C5 *)
(** Claim C5: the name synthesised for an unnamed parameter is the rune
    ['a' + i] followed by ["Param"]; from position 26 on this is no
    longer a lowercase letter: the 27th unnamed parameter is named
    ["{Param"], which is not a Go identifier. *)
Theorem getParamName_past_z :
  (forall t, getParamName ("", t) 25 = "zParam") /\
  (forall t, getParamName ("", t) 26 = "{Param") /\
  nth 26 (mm_CallArgs (MockMethod goTypeString exManyParamsSyrup)) "" = "{Param".
Proof.
  split; [|split]; [intros t; reflexivity | intros t; reflexivity | vm_compute; reflexivity].
Qed.

(** C7 *)
(** Claim C7: an exported interface type without methods gives no model
    entry on the single-file path, but on the annotation-walk path it is
    appended to the package model, which is then kept. *)
Theorem empty_interface_paths (st : Store) (fp key name : string) (exported : bool)
    (pkg : Package) (tps : list (string * string)) :
  (exists st' l,
     walkFile st fp [Some (mkObj name exported pkg (Some tps) (Some []))] =
       inr (st', [(fp, mkPackageDesc (Some pkg) l [mkInterfaceDesc name [] tps])])) /\
  snd (processSingleFile st pkg [mkObj name exported pkg (Some tps) (Some [])] key) = [].
Proof.
  unfold walkFile, processSingleFile. destruct (allocMap st) as [st0 l]. split.
  - exists st0, l. reflexivity.
  - simpl. destruct exported; reflexivity.
Qed.

Section GenerateProofs.

Variable writeImports : PackageDesc -> option string.
Variable writeMockBase : InterfaceDesc -> bool -> option string.
Variable mockMethod : PackageDesc -> InterfaceDesc -> Func -> option string.
Variable callWrapper : PackageDesc -> InterfaceDesc -> Func -> list Func -> option string.
Variable formatSource : string -> option string.
Variable writeFileOk : string -> string -> bool.
Variable writeFileLeft : string -> string -> option string.
Variable fileDir : string -> string.

Local Abbreviation gen :=
  (generate writeImports writeMockBase mockMethod callWrapper formatSource writeFileOk writeFileLeft
     fileDir).

Lemma generate_ok_dom (exported : bool) (pkgs : list (string * PackageDesc))
    (fs fs' : gmap string string) :
  gen exported pkgs fs = (fs', None) ->
  (forall k, k ∈ dom fs -> k ∈ dom fs') /\
  (forall fp pd, In (fp, pd) pkgs -> outPath fileDir exported fp ∈ dom fs').
Proof.
  revert fs. induction pkgs as [|[fp pd] pkgs IH]; intros fs H; simpl in H.
  - injection H as <-. split; [auto | intros ? ? []].
  - destruct (renderPackage writeImports writeMockBase mockMethod callWrapper exported pd)
      as [buf|]; [|discriminate].
    destruct (formatSource buf) as [src|]; [|discriminate].
    destruct (writeFileOk (outPath fileDir exported fp) src); [|discriminate].
    destruct (IH _ H) as [Hkeep Hall]. split.
    + intros k Hk. apply Hkeep. rewrite dom_insert_L. set_solver.
    + intros fp' pd' [Heq|Hin].
      * injection Heq as -> ->. apply Hkeep. rewrite dom_insert_L. set_solver.
      * exact (Hall fp' pd' Hin).
Qed.

Lemma generate_cons (exported : bool) (x : string * PackageDesc)
    (pkgs : list (string * PackageDesc)) (fs : gmap string string) :
  gen exported (x :: pkgs) fs =
    match gen exported [x] fs with
    | (fs1, None) => gen exported pkgs fs1
    | r => r
    end.
Proof.
  destruct x as [fp pd]. simpl.
  destruct (renderPackage writeImports writeMockBase mockMethod callWrapper exported pd)
    as [buf|]; [|reflexivity].
  destruct (formatSource buf) as [src|]; [|reflexivity].
  destruct (writeFileOk (outPath fileDir exported fp) src); reflexivity.
Qed.

(** A failing package changes at most its own output file, and only when
    the failing step is the write. *)
Lemma generate_single_fail (exported : bool) (x : string * PackageDesc)
    (fs0 fs' : gmap string string) (e : string) :
  gen exported [x] fs0 = (fs', Some e) ->
  (forall k, k <> outPath fileDir exported (fst x) -> fs' !! k = fs0 !! k) /\
  (e <> "write file" -> fs' = fs0) /\
  (forall k, k ∈ dom fs0 -> k ∈ dom fs').
Proof.
  destruct x as [fp pd]. simpl. intros H.
  destruct (renderPackage writeImports writeMockBase mockMethod callWrapper exported pd)
    as [buf|]; [|injection H as <- _; split; [intros; reflexivity | split; auto]].
  destruct (formatSource buf) as [src|]; [|injection H as <- _; split; [intros; reflexivity | split; auto]].
  destruct (writeFileOk (outPath fileDir exported fp) src); [discriminate|].
  destruct (writeFileLeft (outPath fileDir exported fp) src) as [part|]; injection H as <- <-.
  - split; [intros k Hk; apply lookup_insert_ne; congruence|].
    split; [intros Hne; congruence|].
    intros k Hk. rewrite dom_insert_L. set_solver.
  - split; [intros; reflexivity|]. split; [intros Hne; congruence | auto].
Qed.

(** C8 *)
(** Claim C8 (as amended): packages are rendered, formatted and written
    one after the other.  When a step fails, the run stops with that
    error: the files of the packages before the failing one stay
    written and the packages after it are not processed.  A render or
    format failure writes nothing for the failing package; a failed
    write changes at most the failing package's own output file (left
    created, truncated or partly written by [os.WriteFile]). *)
Theorem generate_stops_at_failure (exported : bool) (pkgs : list (string * PackageDesc))
    (fs fs' : gmap string string) (e : string) :
  gen exported pkgs fs = (fs', Some e) ->
  exists pre x post fs0,
    pkgs = app pre (x :: post) /\
    gen exported pre fs = (fs0, None) /\
    gen exported [x] fs0 = (fs', Some e) /\
    (forall fp pd, In (fp, pd) pre -> outPath fileDir exported fp ∈ dom fs') /\
    (forall k, k <> outPath fileDir exported (fst x) -> fs' !! k = fs0 !! k) /\
    (e <> "write file" -> fs' = fs0).
Proof.
  intros H.
  assert (Hcore : exists pre x post fs0,
             pkgs = app pre (x :: post) /\ gen exported pre fs = (fs0, None) /\
             gen exported [x] fs0 = (fs', Some e)).
  { revert fs H. induction pkgs as [|y pkgs IH]; intros fs H; [discriminate|].
    rewrite generate_cons in H.
    destruct (gen exported [y] fs) as [fs1 [e1|]] eqn:Hy.
    - exists [], y, pkgs, fs. split; [reflexivity|]. split; [reflexivity|].
      rewrite Hy. exact H.
    - destruct (IH _ H) as (pre & x & post & fs0 & -> & Hg & Hx).
      exists (y :: pre), x, post, fs0. split; [reflexivity|]. split; [|exact Hx].
      rewrite generate_cons, Hy. exact Hg. }
  destruct Hcore as (pre & x & post & fs0 & Hp & Hg & Hx).
  destruct (generate_single_fail _ _ _ _ _ Hx) as (Hframe & Hnw & Hdom).
  exists pre, x, post, fs0.
  split; [exact Hp|]. split; [exact Hg|]. split; [exact Hx|].
  split; [|split; [exact Hframe | exact Hnw]].
  intros fp pd Hin. apply Hdom. exact (proj2 (generate_ok_dom exported pre fs fs0 Hg) fp pd Hin).
Qed.

End GenerateProofs.

(** Witnesses and counterexamples *)

Lemma slice_rendering_sites_witness :
  sig_Params (Sig exVariadicSyrup) !! 0 = Some (("xs", TSlice (TBasic "int")) : var) /\
  par_Type <$> mm_Params (MockMethod goTypeString exVariadicSyrup) !! 0 = Some "...int".
Proof.
  split; [reflexivity|].
  apply (proj1 (proj2 (slice_rendering_sites goTypeString exVariadicSyrup [])) 0 "xs" (TBasic "int")).
  reflexivity.
Defined.

(** C2 does not hold for [Call]: the final parameter of the variadic
    [Put(xs ...int)] is declared with the slice form in the data of the
    call wrapper. *)
Lemma call_variadic_input_param :
  sig_Variadic (Sig exVariadicSyrup) = true /\
  sig_Params (Sig exVariadicSyrup) = [("xs", TSlice (TBasic "int"))] /\
  cd_InputParams (Call goTypeString exVariadicSyrup []) = [mkGoParameter "_xs" "[]int" false 0].
Proof.
  split; [|split]; vm_compute; reflexivity.
Qed.

Lemma getMethodImports_paths_witness :
  In (("ids", TSlice (TNamed "ID" (Some (mkPackage "example.com/ids" "ids")))) : var)
     (sig_Params (func_Sig exForeignFunc)) /\
  In "example.com/ids" (getMethodImports exForeignFunc "example.com/app").
Proof.
  split; [simpl; left; reflexivity|].
  apply (proj2 (getMethodImports_paths exForeignFunc "example.com/app")
           ("ids", TSlice (TNamed "ID" (Some (mkPackage "example.com/ids" "ids"))))).
  - left. simpl. left. reflexivity.
  - apply reach_slice. apply (reach_named "ID" (mkPackage "example.com/ids" "ids")).
  - vm_compute. discriminate.
  - vm_compute. discriminate.
Defined.

(** C3 does not hold for context parameters: the package of the
    context parameter of [Get] is among the collected imports. *)
Lemma context_import_collected :
  isContext goTypeString ("ctx", exContextType) = true /\
  In "context" (getMethodImports (mkFunc "Get" (Sig exContextSyrup)) "example.com/app").
Proof.
  split; [vm_compute; reflexivity|]. vm_compute. left. reflexivity.
Defined.

Lemma exImports_lookup :
  exImportsStore !! pd_Imports exImportsPkg = Some {[ "example.com/ids"; "context" ]}.
Proof. vm_compute. reflexivity. Qed.

Lemma quickGoImports_blocks_witness :
  exists st' out,
    quickGoImports exImportsStore exImportsPkg st' out /\
    ("testing" ∈ out /\ "time" ∈ out /\ "github.com/stretchr/testify/mock" ∈ out).
Proof.
  destruct (quickGoImportsRun exImportsStore exImportsPkg) as [[st' out]|] eqn:E.
  - exists st', out.
    assert (Hq : quickGoImports exImportsStore exImportsPkg st' out)
      by (apply quickGoImportsRun_sound; exact E).
    split; [exact Hq|]. exact (proj1 (quickGoImports_blocks _ _ _ _ Hq)).
  - unfold quickGoImportsRun in E. rewrite exImports_lookup in E. discriminate.
Defined.

Lemma mockMethod_context_elision_witness :
  mm_CallArgs (MockMethod goTypeString exContextSyrup) =
    map callArgOf (List.filter (nonContext goTypeString)
      (indexed 1 [("", TBasic "string"); ("f", TSignature [("", TBasic "int")] [] false)])).
Proof.
  apply (mockMethod_context_elision goTypeString exContextSyrup ("ctx", exContextType)
           [("", TBasic "string"); ("f", TSignature [("", TBasic "int")] [] false)]).
  - reflexivity.
  - vm_compute. reflexivity.
Defined.

(** C8 does not hold: the second package of [exPkgs] fails to format,
    and the file of the first one has been written. *)
Lemma generate_partial_output :
  exGenerate true exPkgs ∅ = (<["a/mock_gen.go" := "package a"]> ∅, Some "source").
Proof.
  vm_compute. reflexivity.
Qed.

Lemma generate_stops_at_failure_witness :
  exists pre x post fs0,
    exPkgs = app pre (x :: post) /\
    exGenerate true pre ∅ = (fs0, None) /\
    exGenerate true [x] fs0 = (<["a/mock_gen.go" := "package a"]> ∅, Some "source") /\
    (forall fp pd, In (fp, pd) pre ->
       outPath exFileDir true fp ∈ dom (<["a/mock_gen.go" := "package a"]> (∅ : gmap string string))) /\
    (forall k, k <> outPath exFileDir true (fst x) ->
       (<["a/mock_gen.go" := "package a"]> ∅ : gmap string string) !! k = fs0 !! k) /\
    ("source" <> "write file" -> (<["a/mock_gen.go" := "package a"]> ∅ : gmap string string) = fs0).
Proof.
  apply (generate_stops_at_failure exWriteImports exWriteMockBase exMockMethod exCallWrapper
           exFormatSource exWriteFileOk exWriteFileLeft exFileDir true exPkgs ∅ _ "source").
  vm_compute. reflexivity.
Defined.

(** C9 does not hold: rendering the imports of [exImportsPkg] changes
    the import map of the package model. *)
Lemma writeImports_changes_model :
  exists st' data,
    WriteImports exImportsStore exImportsPkg st' data /\
    st' !! pd_Imports exImportsPkg <> exImportsStore !! pd_Imports exImportsPkg.
Proof.
  exists (<[pd_Imports exImportsPkg := forcedImports {[ "example.com/ids"; "context" ]}]> exImportsStore),
    (mkImportsData "app"
       (merge_sort importLe ("" :: elements (forcedImports {[ "example.com/ids"; "context" ]})))).
  split.
  - exists (mkPackage "example.com/app" "app"). split; [reflexivity|]. split; [reflexivity|].
    apply quickGoImportsRun_sound. unfold quickGoImportsRun. rewrite exImports_lookup. reflexivity.
  - rewrite exImports_lookup. unfold Store, loc in *. rewrite lookup_insert_eq.
    intros Heq. apply (f_equal (fun o => match o with
                                         | Some X => bool_decide ("testing" ∈ X)
                                         | None => false end)) in Heq.
    vm_compute in Heq. discriminate.
Qed.

Lemma writeImports_adds_forced_witness :
  exists st' data,
    WriteImports exImportsStore exImportsPkg st' data /\
    st' !! 1%positive =
      Some ({["testing"; "time"; "github.com/stretchr/testify/mock"]} ∪ {[ "example.com/ids"; "context" ]}).
Proof.
  destruct (quickGoImportsRun exImportsStore exImportsPkg) as [[st' out]|] eqn:E.
  - exists st', (mkImportsData "app" out).
    assert (Hw : WriteImports exImportsStore exImportsPkg st' (mkImportsData "app" out)).
    { exists (mkPackage "example.com/app" "app"). split; [reflexivity|]. split; [reflexivity|].
      apply quickGoImportsRun_sound. exact E. }
    split; [exact Hw|].
    exact (proj1 (writeImports_adds_forced _ _ _ _ Hw _ eq_refl)).
  - unfold quickGoImportsRun in E. rewrite exImports_lookup in E. discriminate.
Defined.

(** ** Further properties of the model *)

Lemma store_lookup_insert_eq (st : Store) (l : loc) (x : gset string) : <[l := x]> st !! l = Some x.
Proof. unfold Store, loc in *. apply lookup_insert_eq. Qed.

Lemma store_lookup_insert_ne (st : Store) (l l' : loc) (x : gset string) :
  l <> l' -> <[l := x]> st !! l' = st !! l'.
Proof. unfold Store, loc in *. apply lookup_insert_ne. Qed.

Lemma store_insert_id (st : Store) (l : loc) (x : gset string) : st !! l = Some x -> <[l := x]> st = st.
Proof. unfold Store, loc in *. apply insert_id. Qed.

Lemma store_insert_insert_eq (st : Store) (l : loc) (x y : gset string) :
  <[l := x]> (<[l := y]> st) = <[l := x]> st.
Proof. unfold Store, loc in *. apply insert_insert_eq. Qed.

Lemma collectMethods_spec (st : Store) (l : loc) (path : string) (ms : list Func)
    (acc : list Func) (S : gset string) :
  st !! l = Some S ->
  collectMethods st l path ms acc = (<[l := methodImportSet path ms ∪ S]> st, app acc ms).
Proof.
  revert st acc S. induction ms as [|m ms IH]; intros st acc S Hl; simpl.
  - rewrite app_nil_r.
    replace (methodImportSet path [] ∪ S) with S by (unfold methodImportSet; set_solver).
    rewrite store_insert_id by exact Hl. reflexivity.
  - unfold addImports at 1. rewrite Hl.
    rewrite (IH _ _ (list_to_set (getMethodImports m path) ∪ S)) by apply store_lookup_insert_eq.
    rewrite store_insert_insert_eq, <- app_assoc. simpl. do 2 f_equal.
    unfold methodImportSet. simpl. set_solver.
Qed.

Lemma objMethods_some (o : Obj) (ms : list Func) :
  obj_Interface o = Some ms -> objMethods o = ms.
Proof. intros Ho. unfold objMethods. rewrite Ho. reflexivity. Qed.

Lemma walkDesc_some (o : Obj) (ms : list Func) :
  obj_Interface o = Some ms ->
  walkDesc o = mkInterfaceDesc (obj_Name o) ms (match obj_Named o with Some tps => tps | None => [] end).
Proof. intros Ho. unfold walkDesc. rewrite (objMethods_some o ms Ho). reflexivity. Qed.

Lemma walkLoop_some (st : Store) (l : loc) (p : Package) (anns : list (option Obj))
    (ifaces : list InterfaceDesc) (S : gset string) st1 pkg1 ifaces1 :
  st !! l = Some S ->
  walkLoop st l (Some p) anns ifaces = inr (st1, pkg1, ifaces1) ->
  st1 = <[l := methodImportSet (pkg_Path p) (flat_map objMethods (omap id anns)) ∪ S]> st /\
  pkg1 = Some p /\ ifaces1 = app ifaces (map walkDesc (omap id anns)).
Proof.
  revert st ifaces S. induction anns as [|[o|] anns IH]; intros st ifaces S Hl H; simpl in H |- *.
  - injection H as <- <- <-. split; [|split; [reflexivity|symmetry; apply app_nil_r]].
    replace (methodImportSet (pkg_Path p) [] ∪ S) with S by (unfold methodImportSet; set_solver).
    rewrite store_insert_id by exact Hl. reflexivity.
  - destruct (obj_Interface o) as [ms|] eqn:Ho; [|discriminate].
    rewrite (collectMethods_spec _ _ _ _ _ S Hl) in H.
    destruct (IH _ _ _ (store_lookup_insert_eq _ _ _) H) as (-> & -> & ->).
    split; [|split; [reflexivity|]].
    + rewrite store_insert_insert_eq. f_equal. unfold methodImportSet.
      rewrite (objMethods_some o ms Ho), flat_map_app. set_solver.
    + rewrite <- app_assoc. simpl. rewrite (walkDesc_some o ms Ho). reflexivity.
  - exact (IH _ _ _ Hl H).
Qed.

Lemma walkLoop_none (st : Store) (l : loc) (anns : list (option Obj))
    (ifaces : list InterfaceDesc) (S : gset string) st1 pkg1 ifaces1 :
  st !! l = Some S ->
  walkLoop st l None anns ifaces = inr (st1, pkg1, ifaces1) ->
  match omap id anns with
  | [] => st1 = st /\ pkg1 = None /\ ifaces1 = ifaces
  | o :: _ =>
      st1 = <[l := methodImportSet (pkg_Path (obj_Pkg o)) (flat_map objMethods (omap id anns)) ∪ S]> st /\
      pkg1 = Some (obj_Pkg o) /\ ifaces1 = app ifaces (map walkDesc (omap id anns))
  end.
Proof.
  revert st ifaces. induction anns as [|[o|] anns IH]; intros st ifaces Hl H; simpl in H |- *.
  - injection H as <- <- <-. auto.
  - destruct (obj_Interface o) as [ms|] eqn:Ho; [|discriminate].
    rewrite (collectMethods_spec _ _ _ _ _ S Hl) in H.
    destruct (walkLoop_some _ _ _ _ _ _ _ _ _ (store_lookup_insert_eq _ _ _) H) as (-> & -> & ->).
    split; [|split; [reflexivity|]].
    + rewrite store_insert_insert_eq. f_equal. unfold methodImportSet.
      rewrite (objMethods_some o ms Ho), flat_map_app. set_solver.
    + rewrite (walkDesc_some o ms Ho), <- app_assoc. reflexivity.
  - exact (IH _ _ Hl H).
Qed.

(** X1: A successful [walk] of one file allocates a fresh import map; the file gets a package entry only if the type of at least one annotation is found, with one interface per found type in order, the package of the first one, and the imports of all their methods collected in that map. *)
Theorem walkFile_model (st : Store) (fp : string) (anns : list (option Obj))
    (st' : Store) (entries : list (string * PackageDesc)) :
  walkFile st fp anns = inr (st', entries) ->
  st !! fresh (dom st) = None /\
  match omap id anns with
  | [] => entries = [] /\ st' = <[fresh (dom st) := ∅]> st
  | o :: _ =>
      entries = [(fp, mkPackageDesc (Some (obj_Pkg o)) (fresh (dom st)) (map walkDesc (omap id anns)))] /\
      st' = <[fresh (dom st) := methodImportSet (pkg_Path (obj_Pkg o)) (flat_map objMethods (omap id anns))]> st
  end.
Proof.
  unfold walkFile, allocMap. intros H.
  split; [apply not_elem_of_dom; apply is_fresh|].
  destruct (walkLoop _ _ None anns []) as [e|[[st1 pkg1] ifaces1]] eqn:E; [discriminate|].
  injection H as <- <-.
  pose proof (walkLoop_none _ _ anns [] ∅ _ _ _ (store_lookup_insert_eq _ _ _) E) as Hw.
  destruct (omap id anns) as [|o rest]; destruct Hw as (-> & -> & ->).
  - split; reflexivity.
  - split; [reflexivity|]. rewrite store_insert_insert_eq, union_empty_r_L. reflexivity.
Qed.

Lemma walkLoop_error (st : Store) (l : loc) (pkg : option Package) (anns : list (option Obj))
    (ifaces : list InterfaceDesc) :
  (exists e, walkLoop st l pkg anns ifaces = inl e) <->
  exists o, In (Some o) anns /\ obj_Interface o = None.
Proof.
  revert st pkg ifaces. induction anns as [|[o|] anns IH]; intros st pkg ifaces; simpl.
  - split; [intros [e He]; discriminate | intros (o & [] & _)].
  - destruct (obj_Interface o) as [ms|] eqn:Ho.
    + destruct (collectMethods _ _ _ ms []) as [st' methods]. rewrite IH.
      split.
      * intros (o' & Hin & Ho'). exists o'. split; [right; exact Hin | exact Ho'].
      * intros (o' & [Heq|Hin] & Ho'); [injection Heq as ->; congruence|].
        exists o'. split; assumption.
    + split; [intros _; exists o; split; [left; reflexivity | exact Ho] | intros _; eexists; reflexivity].
  - rewrite IH. split; intros (o' & Hin & Ho'); exists o'; split; try assumption.
    + right. exact Hin.
    + destruct Hin as [Heq|Hin]; [discriminate | exact Hin].
Qed.

(** X2: Given the looked-up types of its annotations, [walk] of one file fails exactly when one of the found types is not an interface; annotations whose type is not found are skipped. *)
Theorem walkFile_error (st : Store) (fp : string) (anns : list (option Obj)) :
  (exists e, walkFile st fp anns = inl e) <->
  exists o, In (Some o) anns /\ obj_Interface o = None.
Proof.
  unfold walkFile, allocMap. rewrite <- (walkLoop_error (<[fresh (dom st) := ∅]> st) (fresh (dom st)) None anns []).
  destruct (walkLoop _ _ None anns []) as [e|[[st1 pkg1] ifaces1]].
  - split; intros [e' _]; exists e; reflexivity.
  - split; intros [e' He']; discriminate.
Qed.

Lemma singleFileLoop_spec (st : Store) (l : loc) (pkg : Package) (scope : list Obj)
    (ifaces : list InterfaceDesc) (S : gset string) :
  st !! l = Some S ->
  singleFileLoop st l pkg scope ifaces =
    (<[l := methodImportSet (pkg_Path pkg) (flat_map scannedMethods scope) ∪ S]> st,
     app ifaces (map singleFileDesc (List.filter singleFileKeeps scope))).
Proof.
  revert st ifaces S. induction scope as [|o scope IH]; intros st ifaces S Hl; simpl.
  - rewrite app_nil_r.
    replace (methodImportSet (pkg_Path pkg) [] ∪ S) with S by (unfold methodImportSet; set_solver).
    rewrite store_insert_id by exact Hl. reflexivity.
  - assert (Hcase : (exists ms, obj_Exported o = true /\ (exists tps, obj_Named o = Some tps) /\
                       obj_Interface o = Some ms /\ scannedMethods o = ms) \/
                    (scannedMethods o = [] /\
                     singleFileLoop st l pkg (o :: scope) ifaces = singleFileLoop st l pkg scope ifaces)).
    { unfold scannedMethods. simpl.
      destruct (obj_Exported o), (obj_Named o) as [tps|], (obj_Interface o) as [ms|];
        try (right; split; reflexivity).
      left. exists ms. eauto. }
    destruct Hcase as [(ms & He & [tps Hn] & Hi & Hs) | [Hs Hskip]].
    + assert (Hd : singleFileDesc o = mkInterfaceDesc (obj_Name o) ms [])
        by (unfold singleFileDesc; rewrite Hs; reflexivity).
      rewrite He, Hn, Hi. rewrite (collectMethods_spec _ _ _ _ _ S Hl). simpl.
      rewrite (IH _ _ (methodImportSet (pkg_Path pkg) ms ∪ S)) by apply store_lookup_insert_eq.
      assert (Hk : singleFileKeeps o = Nat.ltb 0 (length ms))
        by (unfold singleFileKeeps; rewrite Hs; reflexivity).
      rewrite Hk, store_insert_insert_eq.
      f_equal.
      * f_equal. unfold methodImportSet. rewrite flat_map_app. set_solver.
      * destruct (Nat.ltb 0 (length ms)); simpl; [|reflexivity].
        rewrite <- app_assoc. rewrite Hd. reflexivity.
    + simpl in Hskip. rewrite Hskip, (IH _ _ S) by exact Hl.
      assert (Hk : singleFileKeeps o = false)
        by (unfold singleFileKeeps; rewrite Hs; reflexivity).
      rewrite Hk, Hs. reflexivity.
Qed.

(** X3: [processSingleFile] allocates a fresh import map holding the imports of the methods of the exported named interfaces of the scope, and yields an entry only when at least one of them has methods, listing exactly those, in scope order. *)
Theorem processSingleFile_model (st : Store) (pkg : Package) (scope : list Obj) (key : string) :
  processSingleFile st pkg scope key =
    (<[fresh (dom st) := methodImportSet (pkg_Path pkg) (flat_map scannedMethods scope)]> st,
     match List.filter singleFileKeeps scope with
     | [] => []
     | _ => [(key, mkPackageDesc (Some pkg) (fresh (dom st))
                     (map singleFileDesc (List.filter singleFileKeeps scope)))]
     end).
Proof.
  unfold processSingleFile, allocMap.
  rewrite (singleFileLoop_spec _ _ pkg scope [] ∅) by (apply store_lookup_insert_eq).
  rewrite store_insert_insert_eq, union_empty_r_L. simpl.
  destruct (List.filter singleFileKeeps scope); reflexivity.
Qed.

Section GenerateMore.

Variable writeImports : PackageDesc -> option string.
Variable writeMockBase : InterfaceDesc -> bool -> option string.
Variable mockMethod : PackageDesc -> InterfaceDesc -> Func -> option string.
Variable callWrapper : PackageDesc -> InterfaceDesc -> Func -> list Func -> option string.
Variable formatSource : string -> option string.
Variable writeFileOk : string -> string -> bool.
Variable writeFileLeft : string -> string -> option string.
Variable fileDir : string -> string.

Local Abbreviation gen :=
  (generate writeImports writeMockBase mockMethod callWrapper formatSource writeFileOk writeFileLeft
     fileDir).

Lemma generate_frame (exported : bool) (pkgs : list (string * PackageDesc))
    (fs fs' : gmap string string) (r : option string) (k : string) :
  gen exported pkgs fs = (fs', r) ->
  k ∉ outPaths fileDir exported pkgs ->
  fs' !! k = fs !! k.
Proof.
  revert fs. induction pkgs as [|[fp pd] pkgs IH]; intros fs H Hk; simpl in H.
  - injection H as <- _. reflexivity.
  - simpl in Hk. apply not_elem_of_cons in Hk as [Hk1 Hk2].
    destruct (renderPackage writeImports writeMockBase mockMethod callWrapper exported pd)
      as [buf|]; [|injection H as <- _; reflexivity].
    destruct (formatSource buf) as [src|]; [|injection H as <- _; reflexivity].
    destruct (writeFileOk (outPath fileDir exported fp) src).
    + rewrite (IH _ H Hk2). apply lookup_insert_ne. congruence.
    + destruct (writeFileLeft (outPath fileDir exported fp) src); injection H as <- _;
        [apply lookup_insert_ne; congruence | reflexivity].
Qed.

(** X4: [generate] writes no file other than the output files of the packages it is given, whether it succeeds or fails. *)
Theorem generate_writes_only_outputs (exported : bool) (pkgs : list (string * PackageDesc))
    (fs fs' : gmap string string) (r : option string) (k : string) :
  gen exported pkgs fs = (fs', r) ->
  k ∉ outPaths fileDir exported pkgs ->
  fs' !! k = fs !! k.
Proof. apply generate_frame. Qed.


End GenerateMore.

(** X6: When the collected imports do not contain the empty path, the import list of [quickGoImports] has no duplicates and consists of the collected imports, the three forced imports and one empty separator. *)
Theorem quickGoImports_members (st : Store) (d : PackageDesc) (st' : Store) (out : list string)
    (imps : gset string) :
  quickGoImports st d st' out ->
  st !! pd_Imports d = Some imps ->
  "" ∉ imps ->
  NoDup out /\
  (forall x, x ∈ out <-> x = "" \/ x ∈ imps \/
     x ∈ ({["testing"; "time"; "github.com/stretchr/testify/mock"]} : gset string)).
Proof.
  intros (imps0 & iter & E & _ & Hiter & Hperm & _) Himps Hne.
  rewrite E in Himps. injection Himps as <-.
  split.
  - rewrite <- Hperm. apply NoDup_cons. split.
    + rewrite Hiter, elem_of_elements. unfold forcedImports. set_solver.
    + rewrite Hiter. apply NoDup_elements.
  - intros x. rewrite <- Hperm, elem_of_cons, Hiter, elem_of_elements.
    unfold forcedImports. set_solver.
Qed.

(** X7: In the sorted import list, every import before the empty separator is a path without a dot and every import after it is a dotted path. *)
Theorem quickGoImports_separator (st : Store) (d : PackageDesc) (st' : Store) (out : list string)
    (i : nat) :
  quickGoImports st d st' out ->
  out !! i = Some "" ->
  (forall k a, k < i -> out !! k = Some a -> a <> "" -> hasDot a = false) /\
  (forall k b, i < k -> out !! k = Some b -> b <> "" -> hasDot b = true).
Proof.
  intros (imps & iter & _ & _ & _ & _ & Hsorted) Hi.
  split.
  - intros k a Hk Ha Hne.
    pose proof (StronglySorted_lookup_lt _ _ Hsorted k i a "" Hk Ha Hi) as Hle.
    change (importLe a "") in Hle. apply importLe_iff in Hle.
    unfold importClass in Hle. simpl in Hle.
    apply String.eqb_neq in Hne. rewrite Hne in Hle.
    destruct (hasDot a); [destruct Hle as [?|[? _]]; lia | reflexivity].
  - intros k b Hk Hb Hne.
    pose proof (StronglySorted_lookup_lt _ _ Hsorted i k "" b Hk Hi Hb) as Hle.
    change (importLe "" b) in Hle. apply importLe_iff in Hle.
    unfold importClass in Hle. simpl in Hle.
    apply String.eqb_neq in Hne. rewrite Hne in Hle.
    destruct (hasDot b); [reflexivity | destruct Hle as [?|[? _]]; lia].
Qed.

Lemma str_app_assoc (a b c : string) : (a +:+ b) +:+ c = a +:+ (b +:+ c).
Proof. induction a as [|x a IH]; [reflexivity|]. rewrite !append_cons, IH. reflexivity. Qed.

Lemma str_app_nil_r (a : string) : a +:+ "" = a.
Proof. induction a as [|x a IH]; [reflexivity|]. rewrite append_cons, IH. reflexivity. Qed.

Lemma funcSigParamsLoop_closed (TypeString : typ -> string) (s : Syrup) (n i : nat)
    (ps : list var) (acc : string) :
  Forall (fun p => isContext TypeString p = false) ps ->
  i + length ps = n ->
  funcSigParamsLoop TypeString s n i ps acc =
    acc +:+ join (map (fun kp => getTypeName TypeString s (var_Type (snd kp)) (Nat.eqb (fst kp) (n - 1)))
                    (indexed i ps)) ", ".
Proof.
  revert i acc. induction ps as [|p ps IH]; intros i acc Hf Hn; simpl.
  - symmetry. apply str_app_nil_r.
  - apply Forall_cons in Hf as [Hp Hf]. rewrite Hp. simpl in Hn.
    destruct ps as [|p' ps'].
    + simpl in Hn |- *. destruct (Nat.ltb_spec (i + 1) n); [lia|]. reflexivity.
    + destruct (Nat.ltb_spec (i + 1) n); [|simpl in Hn; lia].
      rewrite IH by (assumption || lia). simpl. rewrite !str_app_assoc. reflexivity.
Qed.

Lemma funcSigResultsLoop_closed (TypeString : typ -> string) (s : Syrup) (n i : nat)
    (rs : list var) (acc : string) :
  i + length rs = n ->
  funcSigResultsLoop TypeString s n i rs acc =
    acc +:+ join (map (fun r => getTypeName TypeString s (var_Type r) false) rs) ", ".
Proof.
  revert i acc. induction rs as [|r rs IH]; intros i acc Hn; simpl.
  - symmetry. apply str_app_nil_r.
  - simpl in Hn. destruct rs as [|r' rs'].
    + simpl in Hn |- *. destruct (Nat.ltb_spec (i + 1) n); [lia|]. reflexivity.
    + destruct (Nat.ltb_spec (i + 1) n); [|simpl in Hn; lia].
      rewrite IH by lia. simpl. rewrite !str_app_assoc. reflexivity.
Qed.

(** X8: Without context parameters, [createFuncSignature] is [func(] followed by the parameter type names joined with commas (the last one rendered as the variadic one), then [) ], then, when there is a results tuple, the result type names joined with commas in parentheses. *)
Theorem createFuncSignature_closed (TypeString : typ -> string) (s : Syrup)
    (params : list var) (results : option (list var)) :
  Forall (fun p => isContext TypeString p = false) params ->
  createFuncSignature TypeString s params results =
    "func(" +:+
    join (map (fun kp => getTypeName TypeString s (var_Type (snd kp)) (Nat.eqb (fst kp) (length params - 1)))
            (indexed 0 params)) ", " +:+
    ") " +:+
    match results with
    | None => ""
    | Some rs => "(" +:+ join (map (fun r => getTypeName TypeString s (var_Type r) false) rs) ", " +:+ ")"
    end.
Proof.
  intros Hf. unfold createFuncSignature.
  rewrite funcSigParamsLoop_closed by (assumption || lia).
  destruct results as [rs|].
  - rewrite funcSigResultsLoop_closed by lia. rewrite !str_app_assoc. reflexivity.
  - rewrite !str_app_assoc, str_app_nil_r. reflexivity.
Qed.

Lemma funcSigParamsLoop_shift (TypeString : typ -> string) (s : Syrup) (n i : nat)
    (ps : list var) (acc : string) :
  i + length ps = n ->
  funcSigParamsLoop TypeString s (S n) (S i) ps acc = funcSigParamsLoop TypeString s n i ps acc.
Proof.
  revert i acc. induction ps as [|p ps IH]; intros i acc Hn; [reflexivity|].
  simpl in Hn. cbn [funcSigParamsLoop].
  assert (E1 : Nat.eqb (S i) (S n - 1) = Nat.eqb i (n - 1))
    by (destruct (Nat.eqb_spec (S i) (S n - 1)), (Nat.eqb_spec i (n - 1)); try reflexivity; lia).
  assert (E2 : Nat.ltb (S i + 1) (S n) = Nat.ltb (i + 1) n)
    by (destruct (Nat.ltb_spec (S i + 1) (S n)), (Nat.ltb_spec (i + 1) n); try reflexivity; lia).
  rewrite E1, E2. apply IH. lia.
Qed.

(** X9: A context parameter in first position leaves no trace in [createFuncSignature]: the signature equals the one of the remaining parameters. *)
Theorem createFuncSignature_leading_context (TypeString : typ -> string) (s : Syrup)
    (c : var) (ps : list var) (results : option (list var)) :
  isContext TypeString c = true ->
  createFuncSignature TypeString s (c :: ps) results = createFuncSignature TypeString s ps results.
Proof.
  intros Hc. unfold createFuncSignature. simpl. rewrite Hc.
  rewrite (funcSigParamsLoop_shift _ _ (length ps) 0) by lia. reflexivity.
Qed.

Lemma isDigit_byte (z : Z) : (58 <= z < 256)%Z -> isDigit (byte (Z.to_N z)) = false.
Proof.
  intros Hz. unfold isDigit, byte. rewrite N_ascii_embedding by lia.
  destruct (N.leb_spec 48 (Z.to_N z)), (N.leb_spec (Z.to_N z) 57); simpl; try reflexivity; lia.
Qed.

Lemma rune_no_digit (c : Z) :
  (58 <= c)%Z -> allBytes (fun b => negb (isDigit b)) (string_of_rune c) = true.
Proof.
  intros Hc. unfold string_of_rune.
  destruct (Z.ltb_spec c 0); [lia|].
  destruct (Z.ltb_spec c 128).
  { cbn [allBytes]. rewrite isDigit_byte by lia. reflexivity. }
  destruct (Z.ltb_spec c 2048).
  { cbn [allBytes]. rewrite !isDigit_byte by (split; [Z.to_euclidean_division_equations; lia|Z.to_euclidean_division_equations; lia]). reflexivity. }
  destruct ((55296 <=? c) && (c <=? 57343))%Z; [vm_compute; reflexivity|].
  destruct (Z.ltb_spec c 65536).
  { cbn [allBytes]. rewrite !isDigit_byte by (split; Z.to_euclidean_division_equations; lia). reflexivity. }
  destruct (Z.leb_spec c 1114111); [|vm_compute; reflexivity].
  cbn [allBytes]. rewrite !isDigit_byte by (split; Z.to_euclidean_division_equations; lia). reflexivity.
Qed.

Lemma pretty_N_go_digits (x : N) (s : string) :
  allBytes isDigit s = true -> allBytes isDigit (pretty_N_go x s) = true.
Proof.
  revert s. induction (N.lt_wf_0 x) as [x _ IH]; intros s Hs.
  destruct (decide (x = 0)%N) as [->|Hx]; [rewrite pretty_N_go_0; exact Hs|].
  rewrite pretty_N_go_step by lia. apply IH; [apply N.div_lt; lia|].
  cbn [allBytes]. rewrite Hs, andb_true_r.
  generalize (x `mod` 10)%N. intros [|p]; [reflexivity|].
  repeat (destruct p as [p|p|]; try reflexivity).
Qed.

Lemma itoa_digits (n : nat) : allBytes isDigit (itoa n) = true.
Proof.
  unfold itoa, pretty, pretty_N. case_decide; [reflexivity|].
  apply pretty_N_go_digits. reflexivity.
Qed.

Lemma split_digits (a1 a2 d1 d2 : string) :
  allBytes (fun b => negb (isDigit b)) a1 = true ->
  allBytes (fun b => negb (isDigit b)) a2 = true ->
  allBytes isDigit d1 = true -> allBytes isDigit d2 = true ->
  a1 +:+ d1 = a2 +:+ d2 -> d1 = d2.
Proof.
  revert a2. induction a1 as [|c a1 IH]; intros a2 Ha1 Ha2 Hd1 Hd2 H.
  - destruct a2 as [|c' a2]; [exact H|].
    rewrite append_empty_l, append_cons in H. subst d1.
    cbn [allBytes] in Ha2, Hd1. apply andb_true_iff in Ha2 as [Hc _].
    apply andb_true_iff in Hd1 as [Hc' _]. rewrite Hc' in Hc. discriminate.
  - destruct a2 as [|c' a2].
    + rewrite append_empty_l, append_cons in H. subst d2.
      cbn [allBytes] in Ha1, Hd2. apply andb_true_iff in Ha1 as [Hc _].
      apply andb_true_iff in Hd2 as [Hc' _]. rewrite Hc' in Hc. discriminate.
    + rewrite !append_cons in H. injection H as <- H.
      cbn [allBytes] in Ha1, Ha2. apply andb_true_iff in Ha1 as [_ Ha1].
      apply andb_true_iff in Ha2 as [_ Ha2].
      exact (IH a2 Ha1 Ha2 Hd1 Hd2 H).
Qed.

Lemma getResultName_unnamed_inj (v w : var) (i j : nat) :
  var_Name v = "" -> var_Name w = "" -> getResultName v i = getResultName w j -> i = j.
Proof.
  intros Hv Hw. unfold getResultName. rewrite Hv, Hw. simpl.
  intros H. injection H as H. rewrite !append_empty_l in H.
  apply split_digits in H;
    [| apply rune_no_digit; lia | apply rune_no_digit; lia | apply itoa_digits | apply itoa_digits].
  unfold itoa in H. apply (inj pretty) in H. lia.
Qed.

Lemma indexed_fst {A} (i : nat) (l : list A) (kx : nat * A) :
  In kx (indexed i l) -> i <= fst kx.
Proof.
  revert i. induction l as [|x l IH]; intros i Hin; [destruct Hin|].
  destruct Hin as [<-|Hin]; [simpl; lia|]. specialize (IH _ Hin). lia.
Qed.

Lemma result_names_nodup (i : nat) (rs : list var) :
  Forall (fun r => var_Name r = "") rs ->
  NoDup (map (fun kr => getResultName (snd kr) (fst kr)) (indexed i rs)).
Proof.
  revert i. induction rs as [|r rs IH]; intros i Hf; simpl; [constructor|].
  apply Forall_cons in Hf as [Hr Hf]. constructor; [|apply IH; exact Hf].
  intros Hin. apply list_elem_of_In, in_map_iff in Hin as ([k r'] & Heq & Hin).
  pose proof (indexed_fst _ _ _ Hin) as Hk. simpl in Hk, Heq.
  assert (Hr' : var_Name r' = "").
  { clear -Hf Hin. revert i Hin. induction rs as [|r0 rs IH]; intros i Hin; [destruct Hin|].
    apply Forall_cons in Hf as [H0 Hf]. destruct Hin as [Heq|Hin];
      [injection Heq as _ <-; exact H0 | exact (IH Hf _ Hin)]. }
  apply getResultName_unnamed_inj in Heq; [lia | exact Hr' | exact Hr].
Qed.

(** X10: When all results are unnamed, the result names of [MockMethod] are pairwise distinct, also past 26 results. *)
Theorem mockMethod_result_names_distinct (TypeString : typ -> string) (s : Syrup) :
  Forall (fun r => var_Name r = "") (sig_Results (Sig s)) ->
  NoDup (map res_Name (mm_Results (MockMethod TypeString s))).
Proof.
  intros Hf. destruct (MockMethod_fields TypeString s) as (_ & _ & _ & ->).
  rewrite map_map. simpl. apply result_names_nodup. exact Hf.
Qed.

Lemma callInputParams_closed (TypeString : typ -> string) (s : Syrup) (i pos : nat)
    (ps : list var) (acc : list GoParameter) :
  callInputParams TypeString s i pos ps acc =
    app acc (zip_with (fun q kp => mkGoParameter ("_" +:+ getParamName (snd kp) (fst kp))
                                     (getTypeName TypeString s (var_Type (snd kp)) false) false q)
               (seq pos (length (List.filter (nonContext TypeString) (indexed i ps))))
               (List.filter (nonContext TypeString) (indexed i ps))).
Proof.
  revert i pos acc. induction ps as [|p ps IH]; intros i pos acc; simpl.
  - rewrite app_nil_r. reflexivity.
  - change (nonContext TypeString (i, p)) with (negb (isContext TypeString p)).
    destruct (isContext TypeString p); simpl.
    + apply IH.
    + rewrite IH, <- app_assoc. reflexivity.
Qed.

Lemma zip_with_seq_positions {A} (f : nat -> A -> GoParameter) (pos : nat) (l : list A) :
  (forall q x, par_Position (f q x) = q) ->
  map par_Position (zip_with f (seq pos (length l)) l) = seq pos (length l).
Proof.
  intros Hf. revert pos. induction l as [|x l IH]; intros pos; simpl; [reflexivity|].
  rewrite Hf, IH. reflexivity.
Qed.

(** X11: The input parameters of [Call] are the non-context parameters in order, named with an underscore prefix, rendered without the variadic form, and numbered 0, 1, 2, ... without gaps. *)
Theorem Call_inputParams_positions (TypeString : typ -> string) (s : Syrup) (methods : list Func) :
  let F := List.filter (nonContext TypeString) (indexed 0 (sig_Params (Sig s))) in
  cd_InputParams (Call TypeString s methods) =
    zip_with (fun q kp => mkGoParameter ("_" +:+ getParamName (snd kp) (fst kp))
                            (getTypeName TypeString s (var_Type (snd kp)) false) false q)
      (seq 0 (length F)) F /\
  map par_Position (cd_InputParams (Call TypeString s methods)) = seq 0 (length F).
Proof.
  simpl. unfold Call. simpl. rewrite callInputParams_closed. simpl.
  split; [reflexivity|]. apply zip_with_seq_positions. reflexivity.
Qed.

Lemma prefix_app (p post : string) : String.prefix p (p +:+ post) = true.
Proof.
  induction p as [|c p IH]; [destruct post; reflexivity|].
  rewrite append_cons. simpl. destruct (ascii_dec c c) as [_|n]; [exact IH|congruence].
Qed.

Lemma prefix_split (p s : string) : String.prefix p s = true -> exists post, s = p +:+ post.
Proof.
  revert s. induction p as [|c p IH]; intros s H; [exists s; reflexivity|].
  destruct s as [|c' s]; [discriminate|]. simpl in H.
  destruct (ascii_dec c c') as [<-|]; [|discriminate].
  destruct (IH s H) as [post ->]. exists post. reflexivity.
Qed.

Lemma indexOf_spec (p s : string) :
  (indexOf p s = (-1)%Z /\ forall pre post, s <> pre +:+ p +:+ post) \/
  (exists pre post, s = pre +:+ p +:+ post /\ indexOf p s = Z.of_nat (String.length pre) /\
     forall pre' post', s = pre' +:+ p +:+ post' -> String.length pre <= String.length pre').
Proof.
  induction s as [|c s IH].
  - cbn [indexOf]. destruct (String.prefix p "") eqn:Hp.
    + right. destruct (prefix_split _ _ Hp) as [post Hpost].
      exists "", post. split; [exact Hpost|]. split; [reflexivity|]. intros; simpl; lia.
    + left. split; [reflexivity|]. intros pre post Heq.
      destruct pre as [|c pre]; [|discriminate].
      rewrite append_empty_l in Heq. rewrite Heq, prefix_app in Hp. discriminate.
  - cbn [indexOf]. destruct (String.prefix p (String c s)) eqn:Hp.
    + right. destruct (prefix_split _ _ Hp) as [post Hpost].
      exists "", post. split; [exact Hpost|]. split; [reflexivity|]. intros; simpl; lia.
    + destruct IH as [[Hi Hno] | (pre & post & Hs & Hi & Hmin)].
      * left. rewrite Hi. split; [reflexivity|]. intros pre post Heq.
        destruct pre as [|c' pre].
        -- rewrite append_empty_l in Heq. rewrite Heq, prefix_app in Hp. discriminate.
        -- rewrite append_cons in Heq. injection Heq as _ Heq. exact (Hno _ _ Heq).
      * right. exists (String c pre), post. split; [rewrite Hs; reflexivity|].
        rewrite Hi. destruct (Z.eqb_spec (Z.of_nat (String.length pre)) (-1)); [lia|].
        split; [simpl; lia|]. intros pre' post' Heq.
        destruct pre' as [|c' pre'].
        -- rewrite append_empty_l in Heq. rewrite Heq, prefix_app in Hp. discriminate.
        -- rewrite append_cons in Heq. injection Heq as _ Heq. specialize (Hmin _ _ Heq). simpl. lia.
Qed.

Lemma sliceFrom_app (a b : string) : sliceFrom (a +:+ b) (String.length a) = b.
Proof.
  unfold sliceFrom. rewrite length_append.
  replace (String.length a + String.length b - String.length a) with (String.length b) by lia.
  induction a as [|c a IH]; simpl; [apply substring_full | exact IH].
Qed.

(** X12: An annotation line yields the text after the first occurrence of the tag [// mocktail:], and a line without the tag yields nothing. *)
Theorem annotationTarget_first_tag (line t : string) :
  annotationTarget line = Some t <->
  exists pre, line = pre +:+ commentTagPattern +:+ t /\
    forall pre' post', line = pre' +:+ commentTagPattern +:+ post' ->
      String.length pre <= String.length pre'.
Proof.
  unfold annotationTarget. split.
  - destruct (String.eqb line "") eqn:He; [discriminate|].
    destruct (indexOf_spec commentTagPattern line) as [[-> _] | (pre & post & Hs & -> & Hmin)];
      [discriminate|].
    destruct (Z.leb_spec (Z.of_nat (String.length pre)) (-1)); [lia|].
    rewrite Nat2Z.id. intros Ht. injection Ht as <-.
    assert (E : sliceFrom line (String.length pre + String.length commentTagPattern) = post)
      by (rewrite Hs, <- str_app_assoc, <- length_append; apply sliceFrom_app).
    change 12 with (String.length commentTagPattern). rewrite E. exists pre. split; [exact Hs | exact Hmin].
  - intros (pre & Hs & Hmin).
    assert (Hne : String.eqb line "" = false).
    { rewrite Hs. destruct pre; reflexivity. }
    rewrite Hne.
    destruct (indexOf_spec commentTagPattern line) as [[_ Hno] | (pre0 & post0 & Hs0 & -> & Hmin0)];
      [exfalso; exact (Hno _ _ Hs)|].
    destruct (Z.leb_spec (Z.of_nat (String.length pre0)) (-1)); [lia|].
    rewrite Nat2Z.id.
    assert (Hl : String.length pre0 = String.length pre).
    { specialize (Hmin _ _ Hs0). specialize (Hmin0 _ _ Hs). lia. }
    rewrite Hl, Hs, <- str_app_assoc, <- length_append, sliceFrom_app. reflexivity.
Qed.

Lemma lastIndexByte_go_none (c : ascii) (s : string) (i acc : Z) :
  containsByte c s = false -> lastIndexByte_go c s i acc = acc.
Proof.
  revert i acc. induction s as [|c' s IH]; intros i acc H; [reflexivity|].
  simpl in H |- *. apply orb_false_iff in H as [H1 H2]. rewrite H1. apply IH, H2.
Qed.

Lemma lastIndexByte_go_app (c : ascii) (a b : string) (i acc : Z) :
  lastIndexByte_go c (a +:+ b) i acc =
    lastIndexByte_go c b (i + Z.of_nat (String.length a)) (lastIndexByte_go c a i acc).
Proof.
  revert i acc. induction a as [|c' a IH]; intros i acc.
  - simpl. rewrite Z.add_0_r. reflexivity.
  - rewrite append_cons. simpl. rewrite IH. f_equal. lia.
Qed.

Lemma lastIndexByte_last (c : ascii) (q n : string) :
  containsByte c n = false -> lastIndexByte c (q +:+ String c n) = Z.of_nat (String.length q).
Proof.
  intros Hn. unfold lastIndexByte. rewrite lastIndexByte_go_app. simpl.
  rewrite Ascii.eqb_refl. apply lastIndexByte_go_none, Hn.
Qed.

Lemma substring_prefix (a b : string) : String.substring 0 (String.length a) (a +:+ b) = a.
Proof. induction a as [|c a IH]; [destruct b; reflexivity|]. rewrite append_cons. simpl. rewrite IH. reflexivity. Qed.

(** X13: An annotation [q.Name] with a non-empty [q] resolves to the import path [path.Join(moduleName, q)] and the name after the last dot; a name without a dot, or whose only dot is its first byte, is kept whole and resolved in the package of the file, and fails when that relative path fails. *)
Theorem annotationImport_split (pathJoin : string -> string -> string)
    (moduleName : string) (filePkgName : option string) :
  (forall q n, q <> "" -> containsByte "." n = false ->
     annotationImport pathJoin moduleName filePkgName (q +:+ "." +:+ n) =
       inr (pathJoin moduleName q, n)) /\
  (forall n, containsByte "." n = false ->
     annotationImport pathJoin moduleName filePkgName n =
       match filePkgName with
       | Some rel => inr (pathJoin moduleName rel, n)
       | None => inl "rel"
       end) /\
  (forall n, containsByte "." n = false ->
     annotationImport pathJoin moduleName filePkgName ("." +:+ n) =
       match filePkgName with
       | Some rel => inr (pathJoin moduleName rel, "." +:+ n)
       | None => inl "rel"
       end).
Proof.
  split; [|split].
  - intros q n Hq Hn. unfold annotationImport.
    change ("." +:+ n) with (String "." n).
    rewrite lastIndexByte_last by exact Hn.
    destruct q as [|c q]; [congruence|].
    destruct (Z.gtb_spec (Z.of_nat (String.length (String c q))) 0); [|simpl in *; lia].
    rewrite Nat2Z.id, substring_prefix, sliceFrom_after. reflexivity.
  - intros n Hn. unfold annotationImport, lastIndexByte.
    rewrite lastIndexByte_go_none by exact Hn. reflexivity.
  - intros n Hn. unfold annotationImport.
    change (lastIndexByte "." ("." +:+ n)) with (lastIndexByte "." ("" +:+ String "." n)).
    rewrite lastIndexByte_last by exact Hn. reflexivity.
Qed.

Section WriterProofs.

Variables (W Err Arg : Type).
Variable Fprint : W -> list Arg -> W * option Err.
Variable Fprintf : W -> string -> list Arg -> W * option Err.
Variable Fprintln : W -> list Arg -> W * option Err.

Local Abbreviation step := (writerStep W Err Arg Fprint Fprintf Fprintln).
Local Abbreviation run := (writerRun W Err Arg Fprint Fprintf Fprintln).

Lemma writerStep_stuck (w : Writer W Err) (c : writerCall Arg) (e : Err) :
  w_err W Err w = Some e -> step w c = w.
Proof.
  intros H. destruct c; simpl;
    [unfold Writer_Print | unfold Writer_Printf | unfold Writer_Println]; rewrite H; reflexivity.
Qed.

Lemma writerRun_stuck (w : Writer W Err) (cs : list (writerCall Arg)) (e : Err) :
  w_err W Err w = Some e -> run w cs = w.
Proof.
  revert w. induction cs as [|c cs IH]; intros w H; [reflexivity|].
  unfold writerRun. simpl. rewrite (writerStep_stuck _ _ e H). apply IH, H.
Qed.

(** X14: Once a [Writer] has recorded an error, later [Print], [Printf] and [Println] calls change nothing, so the error it reports is the first one. *)
Theorem writerRun_keeps_first_error (w : Writer W Err) (cs1 cs2 : list (writerCall Arg)) (e : Err) :
  Writer_Err W Err (run w cs1) = Some e ->
  run w (cs1 ++ cs2) = run w cs1.
Proof.
  intros H. unfold writerRun at 1. rewrite fold_left_app.
  apply (writerRun_stuck _ _ e H).
Qed.

End WriterProofs.

(** X15: For each method [generate] renders, the mock base struct and the method stubs use the same interface name and the same type parameter list, both in declaration and in use. *)
Theorem mockBase_matches_methods (TypeString : typ -> string) (pkg : Package)
    (interfaceDesc : InterfaceDesc) (method : Func) (methods : list Func) (exported : bool) :
  let s := generateSyrup pkg interfaceDesc method in
  let mb := writeMockBaseData interfaceDesc exported in
  mb_InterfaceName mb = mm_InterfaceName (MockMethod TypeString s) /\
  mb_TypeParamsUse mb = mm_TypeParamsUse (MockMethod TypeString s) /\
  mb_TypeParamsUse mb = cd_TypeParamsUse (Call TypeString s methods) /\
  mb_TypeParamsDecl mb = cd_TypeParamsDecl (Call TypeString s methods).
Proof.
  unfold writeMockBaseData, generateSyrup, MockMethod. simpl.
  destruct (mockParamsLoop _ _ _ _ _ _) as [[paramsData callArgs] onCallArgs].
  unfold getTypeParamsUse, getTypeParamsDecl. simpl.
  destruct (id_TypeParams interfaceDesc); (split; [|split; [|split]]); reflexivity.
Qed.

(** Witnesses of the further properties *)

Lemma walkFile_model_witness :
  exists st' entries,
    walkFile ∅ "a/mock_test.go" [None; Some exEmptyObj] = inr (st', entries) /\
    entries = [("a/mock_test.go",
                mkPackageDesc (Some (obj_Pkg exEmptyObj)) (fresh (dom (∅ : Store)))
                  [walkDesc exEmptyObj])].
Proof.
  destruct (walkFile ∅ "a/mock_test.go" [None; Some exEmptyObj]) as [e|[st' entries]] eqn:E.
  - vm_compute in E. discriminate.
  - exists st', entries. split; [reflexivity|].
    destruct (walkFile_model _ _ _ _ _ E) as [_ [He _]]. exact He.
Defined.

Lemma walkFile_error_witness :
  exists e, walkFile ∅ "a/mock_test.go" [Some (mkObj "Foo" true (mkPackage "example.com/app" "app") None None)] = inl e.
Proof.
  apply (proj2 (walkFile_error _ _ _)).
  exists (mkObj "Foo" true (mkPackage "example.com/app" "app") None None).
  split; [left; reflexivity | reflexivity].
Defined.

Lemma generate_writes_only_outputs_witness :
  (<["a/mock_gen.go" := "package a"]> ∅ : gmap string string) !! "z" = (∅ : gmap string string) !! "z".
Proof.
  apply (generate_writes_only_outputs exWriteImports exWriteMockBase exMockMethod exCallWrapper
           exFormatSource exWriteFileOk exWriteFileLeft exFileDir true exPkgs ∅ _ (Some "source") "z").
  - vm_compute. reflexivity.
  - intros Hin. apply list_elem_of_In in Hin. vm_compute in Hin.
    destruct Hin as [Hin|[Hin|[]]]; discriminate.
Defined.


Lemma quickGoImports_members_witness :
  exists st' out,
    quickGoImports exImportsStore exImportsPkg st' out /\ NoDup out /\ "context" ∈ out.
Proof.
  destruct (quickGoImportsRun exImportsStore exImportsPkg) as [[st' out]|] eqn:E.
  - exists st', out.
    assert (Hq : quickGoImports exImportsStore exImportsPkg st' out)
      by (apply quickGoImportsRun_sound; exact E).
    destruct (quickGoImports_members _ _ _ _ _ Hq exImports_lookup) as [Hnd Hin].
    + apply (bool_decide_eq_true_1 ("" ∉ ({[ "example.com/ids"; "context" ]} : gset string))).
      vm_compute. reflexivity.
    + split; [exact Hq|]. split; [exact Hnd|]. apply Hin. right. left. set_solver.
  - unfold quickGoImportsRun in E. rewrite exImports_lookup in E. discriminate.
Defined.

Lemma quickGoImports_separator_witness :
  exists st' out,
    quickGoImports exImportsStore exImportsPkg st' out /\ out !! 3 = Some "" /\
    (forall k b, 3 < k -> out !! k = Some b -> b <> "" -> hasDot b = true).
Proof.
  assert (H3 : match quickGoImportsRun exImportsStore exImportsPkg with
               | Some (_, out) => out !! 3 | None => None end = Some "")
    by (vm_compute; reflexivity).
  destruct (quickGoImportsRun exImportsStore exImportsPkg) as [[st' out]|] eqn:E; [|discriminate].
  exists st', out.
  assert (Hq : quickGoImports exImportsStore exImportsPkg st' out)
    by (apply quickGoImportsRun_sound; exact E).
  split; [exact Hq|]. split; [exact H3|].
  exact (proj2 (quickGoImports_separator _ _ _ _ 3 Hq H3)).
Defined.

Lemma createFuncSignature_closed_witness :
  createFuncSignature goTypeString exVariadicSyrup [("", TBasic "string"); ("n", TBasic "int")]
    (Some [("", TNamed "error" None); ("", TBasic "int")]) = "func(string, int) (error, int)".
Proof.
  rewrite (createFuncSignature_closed goTypeString exVariadicSyrup).
  - vm_compute. reflexivity.
  - repeat constructor.
Defined.

Lemma createFuncSignature_leading_context_witness :
  createFuncSignature goTypeString exContextSyrup (sig_Params (Sig exContextSyrup)) None =
  createFuncSignature goTypeString exContextSyrup
    [("", TBasic "string"); ("f", TSignature [("", TBasic "int")] [] false)] None.
Proof.
  apply (createFuncSignature_leading_context goTypeString exContextSyrup ("ctx", exContextType)).
  vm_compute. reflexivity.
Defined.

Lemma mockMethod_result_names_distinct_witness :
  NoDup (map res_Name (mm_Results (MockMethod goTypeString exResultsSyrup))).
Proof.
  apply mockMethod_result_names_distinct. repeat constructor.
Defined.

Lemma annotationTarget_first_tag_witness :
  annotationTarget "x // mocktail:Foo // mocktail:Bar" = Some "Foo // mocktail:Bar".
Proof.
  apply (proj2 (annotationTarget_first_tag _ _)). exists "x ". split; [reflexivity|].
  intros [|c1 [|c2 pre']] post' H; [discriminate | discriminate | simpl; lia].
Defined.

Lemma annotationImport_split_witness :
  annotationImport exPathJoin "example.com/m" None "pkg/sub.Iface" =
    inr ("example.com/m/pkg/sub", "Iface") /\
  annotationImport exPathJoin "example.com/m" None ".Iface" = inl "rel".
Proof.
  split.
  - exact (proj1 (annotationImport_split exPathJoin "example.com/m" None) "pkg/sub" "Iface"
             ltac:(discriminate) eq_refl).
  - exact (proj2 (proj2 (annotationImport_split exPathJoin "example.com/m" None)) "Iface" eq_refl).
Defined.

Lemma writerRun_keeps_first_error_witness :
  writerRun nat string nat exFprint exFprintf exFprintln (mkWriter nat string 0 None)
    ([CallPrint nat [1; 2]; CallPrintln nat [1]] ++ [CallPrint nat [7]; CallPrintf nat "%d" [1]]) =
  writerRun nat string nat exFprint exFprintf exFprintln (mkWriter nat string 0 None)
    [CallPrint nat [1; 2]; CallPrintln nat [1]].
Proof.
  apply (writerRun_keeps_first_error _ _ _ _ _ _ _ _ _ "short write"). reflexivity.
Defined.
